(** * SparrowDB storage engine: write path, read path, rotation and compaction

    A shallow embedding of package [db] of PMoneda/sparrowdb:
    - [db/db.go]: [newDataHolder], [openDataHolder], [dataHolder.Get],
      [InsertData], [GetDataByKey], [NewDatabase];
    - the compaction file of the package: [doCompaction], [geTombstonesFromDb],
      [getTombstonesFromCommitlog], [containsKey], [dhContainsAnyTombstone].

    These functions are translated from their Go text, statement by
    statement.  The packages they call ([model], [index], [util], [cache],
    [engine], the commit log type, [slog]) are outside the translated text:
    each is given as a small executable model, introduced by a comment that
    starts "Modelled from the spec:", or is left as a parameter of the
    development (class [Externals]).

    State is passed explicitly.  A [Database] value is the Go struct; a
    [World] is the disk under the database directory together with the lines
    written by [slog].  Failures of the operating system are drawn from an
    environment ([Env]) that says which calls fail.  A Go panic is an absent
    result ([None], or [false] for a compaction run that did not reach its
    end).  Locks, channels and the cron scheduler carry no data and are left
    out; goroutines are run one after the other. *)

From Stdlib Require Import ZArith Lia.
From stdpp Require Import base option list sorting gmap strings pretty.

Local Open Scope Z_scope.

(** Raw bytes, as [[]byte] and [util.ByteStream] carry them. *)
Definition ByteStream : Type := list Byte.byte.

(** Go's [int64(x)] for a mathematical integer: two's complement wrap-around. *)
Definition int64 (z : Z) : Z := (z + 2 ^ 63) `mod` 2 ^ 64 - 2 ^ 63.

(** * Package model *)
Module model.

(** [model.DataDefinitionActive] and [model.DataDefinitionRemoved]. *)
Inductive status := DataDefinitionActive | DataDefinitionRemoved.

#[global] Instance status_eq_dec : EqDecision status.
Proof. solve_decision. Defined.

(** Modelled from the spec: the struct [model.DataDefinition] is missing;
    its fields follow the Record of spec section 3 (key, status, timestamp,
    payload, derived size).  The code reads [Key], [Status] and [Size]. *)
Record DataDefinition := {
  Key : string;
  Status : status;
  Timestamp : N;          (* u64 *)
  Payload : ByteStream;
  Size : N                (* uint32 *)
}.

End model.

(** * Package index *)
Module index.

(** Modelled from the spec: [index.Entry] is missing; the code reads the
    fields [Key] (the 32-bit key hash), [Status] and [Offset]. *)
Record Entry := {
  Key : N;                (* uint32 *)
  Status : model.status;
  Offset : Z              (* int64 *)
}.

(** Modelled from the spec: [index.Summary] is missing.  The compaction code
    indexes the value of [GetTable] by key hash ([dhs[v.Key]]), so the table
    is a Go map from key hash to entry; by spec section 4.2 [Add] replaces an
    earlier entry of the same hash (last write wins). *)
Definition Add (e : Entry) (s : gmap N Entry) : gmap N Entry := <[Key e := e]> s.

(** Modelled from the spec: [LookUp(key_hash)] of spec section 4.2. *)
Definition LookUp (s : gmap N Entry) (k : N) : option Entry := s !! k.

(** Modelled from the spec: [Count()] of spec section 4.2, the number of
    entries. *)
Definition Count (s : gmap N Entry) : N := N.of_nat (size s).

(** Modelled from the spec: [GetTable()] of spec section 4.2, the map itself. *)
Definition GetTable (s : gmap N Entry) : gmap N Entry := s.

(** [for _, v := range table].  Go leaves the order of a map range open; the
    model ranges in the order of [map_to_list]. *)
Definition values (s : gmap N Entry) : list Entry := (map_to_list s).*2.

(** Modelled from the spec: the summary "rebuilt by sequentially reading every
    frame of the owning file" (spec section 4.2), entries in file order. *)
Definition ofEntries (es : list Entry) : gmap N Entry :=
  foldl (fun s e => Add e s) ∅ es.

End index.

(** * Package util *)
Module util.

(** Modelled from the spec: [util.BloomFilter] is missing; spec section 4.3
    describes a fixed-size bit array plus a hash parameterisation with [Add]
    and [Contains] over stringified key hashes.  [bitset] holds the indices
    of the bits that are set. *)
Record BloomFilter := {
  size : N;
  hashCount : N;
  bitset : gset N
}.

(** The zero value [util.BloomFilter{}]. *)
Definition zero : BloomFilter := {| size := 0; hashCount := 0; bitset := ∅ |}.

End util.

(** * What the development takes as given *)

(** A [float32], only ever passed through to the bloom filter's sizing. *)
Definition float32 : Type := N.

(** The library functions whose results the engine treats as opaque:
    - [Hash32]: [util.Hash32], the 32-bit hash of a key;
    - [ToByteStream]: [df.ToByteStream()], the frame of a record;
    - [FromByteStream]: [model.NewDataDefinitionFromByteStream] on a stream
      that is not nil;
    - [bloomShape]: the bit count and the hash count that
      [util.NewBloomFilter] chooses for an expected count and a rate;
    - [bloomBuckets]: the bits a key is hashed to, for a bit count and a hash
      count;
    - [bloomBytes], [bloomOfBytes]: [bf.ByteStream()] and
      [util.NewBloomFilterFromByteStream]. *)
Class Externals : Type := {
  Hash32 : string -> N;
  ToByteStream : model.DataDefinition -> ByteStream;
  FromByteStream : ByteStream -> model.DataDefinition;
  bloomShape : N -> float32 -> N * N;
  bloomBuckets : N -> N -> string -> list N;
  bloomBytes : util.BloomFilter -> ByteStream;
  bloomOfBytes : ByteStream -> util.BloomFilter
}.

(** [strconv.Itoa(int(hkey))] on a 64-bit platform: the decimal digits. *)
Definition Itoa (n : N) : string := pretty n.

(** Modelled from the spec: [model.NewDataDefinitionFromByteStream(bs)] for a
    pointer [bs] is missing.  On a nil stream it dereferences nil and panics
    ([None]): spec section 9 records that the read path "recovers from panics
    via deferred recover", spec section 4.1 that a corrupted read ends in
    "not found", and the comment in [dataHolder.Get] that returning nil sends
    the user an empty query result. *)
Definition NewDataDefinitionFromByteStream `{Externals}
    (bs : option ByteStream) : option model.DataDefinition :=
  FromByteStream <$> bs.

(** The methods of [util.BloomFilter]. *)
Module BloomFilter.
Section ops.
Context `{Externals}.

(** Modelled from the spec: [util.NewBloomFilter(expected_count, rate)], an
    empty bit array of the chosen shape. *)
Definition New (n : N) (fp : float32) : util.BloomFilter :=
  let '(m, k) := bloomShape n fp in
  {| util.size := m; util.hashCount := k; util.bitset := ∅ |}.

(** The bits of a key in a filter. *)
Definition buckets (bf : util.BloomFilter) (key : string) : list N :=
  bloomBuckets (util.size bf) (util.hashCount bf) key.

(** Modelled from the spec: [bf.Add(key)] sets the bits of the key. *)
Definition Add (bf : util.BloomFilter) (key : string) : util.BloomFilter :=
  {| util.size := util.size bf; util.hashCount := util.hashCount bf;
     util.bitset := util.bitset bf ∪ list_to_set (buckets bf key) |}.

(** Modelled from the spec: [bf.Contains(key)] tests the bits of the key. *)
Definition Contains (bf : util.BloomFilter) (key : string) : bool :=
  forallb (fun i => bool_decide (i ∈ util.bitset bf)) (buckets bf key).

End ops.
End BloomFilter.

(** * Package engine: the file store *)
Module engine.

(** [engine.FileDesc{Type: ...}]: the logical kind of a file. *)
Inductive FileType := FileCommitlog | FileData | FileIndex | FileBloomFilter.

(** Modelled from the spec: package [engine] is missing; spec section 2 gives
    the FileStore as a "directory-scoped file handle set keyed by logical file
    kind, supporting Create/Open/Rename".  A file holds what was appended to
    it: framed byte blocks (commit log, data and bloom filter files) or index
    entries (index file). *)
Inductive File := Frames (fs : list ByteStream) | Entries (es : list index.Entry).

(** Modelled from the spec: a directory holds at most one file of each
    kind. *)
Record Dir := {
  commitlogFile : option File;
  dataFile : option File;
  indexFile : option File;
  bloomFile : option File
}.

(** The file of a kind in a directory, and its replacement. *)
Definition file (d : Dir) (t : FileType) : option File :=
  match t with
  | FileCommitlog => commitlogFile d
  | FileData => dataFile d
  | FileIndex => indexFile d
  | FileBloomFilter => bloomFile d
  end.

Definition setFile (t : FileType) (f : option File) (d : Dir) : Dir :=
  match t with
  | FileCommitlog =>
      {| commitlogFile := f; dataFile := dataFile d;
         indexFile := indexFile d; bloomFile := bloomFile d |}
  | FileData =>
      {| commitlogFile := commitlogFile d; dataFile := f;
         indexFile := indexFile d; bloomFile := bloomFile d |}
  | FileIndex =>
      {| commitlogFile := commitlogFile d; dataFile := dataFile d;
         indexFile := f; bloomFile := bloomFile d |}
  | FileBloomFilter =>
      {| commitlogFile := commitlogFile d; dataFile := dataFile d;
         indexFile := indexFile d; bloomFile := f |}
  end.

(** Modelled from the spec: an [engine.Storage] is scoped to one directory,
    named here by its path. *)
Abbreviation Storage := string.

(** Modelled from the spec: [engine.OpenFile(path)] fails when the directory
    does not exist. *)
Definition OpenFile (disk : gmap string Dir) (path : string) : option Storage :=
  match disk !! path with Some _ => Some path | None => None end.

(** Modelled from the spec: [sto.Open(desc)] fails when the directory or the
    file is missing. *)
Definition Open (disk : gmap string Dir) (sto : Storage) (t : FileType) : option File :=
  disk !! sto ≫= fun d => file d t.

(** Modelled from the spec: [sto.Create(desc)] leaves an empty file of that
    kind in the directory. *)
Definition Create (disk : gmap string Dir) (sto : Storage) (t : FileType)
    : option (gmap string Dir) :=
  match disk !! sto with
  | Some d => Some (<[sto := setFile t (Some (Frames [])) d]> disk)
  | None => None
  end.

(** Modelled from the spec: [sto.Rename(from, to)] changes the kind of a file
    inside its directory. *)
Definition Rename (disk : gmap string Dir) (sto : Storage) (from to : FileType)
    : option (gmap string Dir) :=
  match disk !! sto with
  | Some d =>
      match file d from with
      | Some f => Some (<[sto := setFile to (Some f) (setFile from None d)]> disk)
      | None => None
      end
  | None => None
  end.

(** Modelled from the spec: [os.Rename(old, new)] on directories fails when
    [old] is missing or [new] is taken. *)
Definition RenameDir (disk : gmap string Dir) (old new : string)
    : option (gmap string Dir) :=
  match disk !! old, disk !! new with
  | Some d, None => Some (<[new := d]> (delete old disk))
  | _, _ => None
  end.

(** Modelled from the spec: [util.DeleteDir(path)] removes the directory and
    the files in it. *)
Definition DeleteDir (disk : gmap string Dir) (path : string) : gmap string Dir :=
  delete path disk.

(** Byte length of a frame on disk. *)
Definition frameLen (b : ByteStream) : Z := Z.of_nat (length b).

(** On-disk byte length of a file of frames. *)
Definition byteLen (fs : list ByteStream) : Z := foldr (fun b n => frameLen b + n) 0 fs.

(** Modelled from the spec: the reader's [Read(position)] of spec section 4.1
    returns the frame that starts at byte [pos] and fails when no frame
    starts there (a truncated or foreign file). *)
Fixpoint readAt (fs : list ByteStream) (pos : Z) : option ByteStream :=
  match fs with
  | [] => None
  | b :: rest =>
      if decide (pos = 0) then Some b
      else if decide (pos < frameLen b) then None
      else readAt rest (pos - frameLen b)
  end.

(** [newReader(f).Read(pos)] on an opened file. *)
Definition Read (f : File) (pos : Z) : option ByteStream :=
  match f with
  | Frames fs => readAt fs pos
  | Entries _ => None
  end.

(** Modelled from the spec: the buffered writer's [Append(bytes)] puts one
    more frame at the end of a file of the directory. *)
Definition Append (disk : gmap string Dir) (sto : Storage) (t : FileType)
    (b : ByteStream) : option (gmap string Dir) :=
  match disk !! sto with
  | Some d =>
      match file d t with
      | Some (Frames fs) => Some (<[sto := setFile t (Some (Frames (fs ++ [b]))) d]> disk)
      | _ => None
      end
  | None => None
  end.

End engine.

(** [filepath.Join(dir, name)] for two clean components. *)
Module filepath.
Definition Join (dir name : string) : string := dir +:+ "/" +:+ name.
End filepath.

(** The commit log's directory name under the database directory. *)
Definition FolderCommitlog : string := "commitlog".

(** * Package slog and the world outside the process *)

(** A line handed to [slog]: the level's format string and its argument. *)
Inductive LogLine := Errorf (format arg : string) | Infof (format arg : string).

(** [errors.ErrFileCorrupted.Error()]. *)
Definition ErrFileCorrupted : string := "Could not read data from %s. File Corrupted".

(** The directories under the database root, and the log written so far
    (oldest line first). *)
Record World := {
  disk : gmap string engine.Dir;
  log : list LogLine
}.

Definition setDisk (d : gmap string engine.Dir) (w : World) : World :=
  {| disk := d; log := log w |}.

Definition slog (l : LogLine) (w : World) : World :=
  {| disk := disk w; log := log w ++ [l] |}.

(** The calls into the operating system that can fail on their own. *)
Inductive Op :=
| OpSize | OpRenameFile | OpRenameDir | OpOpenFile | OpLoadIndex
| OpCreateBloom | OpAppendBloom | OpOpenBloom | OpAdd (key : string).

(** What a call draws from its environment: the clock read by
    [time.Now().UnixNano()], and which operations fail during the call. *)
Record Env := {
  now : Z;
  fails : Op -> bool
}.

(** A Go [error] value: the operation that failed. *)
Inductive error := IOError (op : Op).

(** A Go result pair [(value, error)] of which exactly one is set. *)
Inductive res (A : Type) := Ok (a : A) | Err (e : error).
Arguments Ok {A} a.
Arguments Err {A} e.

(** * Package cache *)
Module cache.

(** Modelled from the spec: package [cache] is missing; spec section 4.4
    describes a bounded LRU from key hash to serialised record bytes.  The
    bound is counted in entries here; [items] is ordered from the most to the
    least recently used. *)
Record Cache := {
  capacity : nat;
  items : list (N * ByteStream)
}.

(** Modelled from the spec: [cache.NewCache(cache.NewLRU(n))]. *)
Definition NewCache (n : Z) : Cache := {| capacity := Z.to_nat n; items := [] |}.

(** The entries of other keys, and the bytes stored for a key. *)
Definition others (k : N) (l : list (N * ByteStream)) : list (N * ByteStream) :=
  filter (fun kv => kv.1 ≠ k) l.

Definition find (k : N) (l : list (N * ByteStream)) : option ByteStream :=
  (fun r => (r.2).2) <$> list_find (fun kv => kv.1 = k) l.

(** Modelled from the spec: [c.Put(k, v)] makes the entry the most recent
    one and drops the least recent entries beyond the capacity. *)
Definition Put (c : Cache) (k : N) (v : ByteStream) : Cache :=
  {| capacity := capacity c;
     items := take (capacity c) ((k, v) :: others k (items c)) |}.

(** Modelled from the spec: [c.Get(k)] is nil on a miss; a hit makes the
    entry the most recent one. *)
Definition Get (c : Cache) (k : N) : option ByteStream * Cache :=
  match find k (items c) with
  | Some v => (Some v, {| capacity := capacity c; items := (k, v) :: others k (items c) |})
  | None => (None, c)
  end.

End cache.

(** * The commit log *)
Module Commitlog.

(** Modelled from the spec: the type [Commitlog] is missing; spec section 4.5
    gives it as an append-only writer with an in-memory summary over its own
    contents.  The code reads the fields [sto], [summary] and [filepath]. *)
Record t := {
  filepath : string;
  sto : engine.Storage;
  summary : gmap N index.Entry
}.

Definition setSummary (s : gmap N index.Entry) (c : t) : t :=
  {| filepath := filepath c; sto := sto c; summary := s |}.

(** Modelled from the spec: [NewCommitLog(dbPath)] is the log at
    [dbPath/commitlog]; the directory and its empty commit log and index
    files are created when absent (spec section 6).  The Go function returns
    no error. *)
Definition New (dbPath : string) (w : World) : t * World :=
  let p := filepath.Join dbPath FolderCommitlog in
  let fresh := {| engine.commitlogFile := Some (engine.Frames []);
                  engine.dataFile := None;
                  engine.indexFile := Some (engine.Entries []);
                  engine.bloomFile := None |} in
  ({| filepath := p; sto := p; summary := ∅ |},
   match disk w !! p with
   | Some _ => w
   | None => setDisk (<[p := fresh]> (disk w)) w
   end).

(** Modelled from the spec: [c.Size()] is the on-disk byte length of the
    commit log file. *)
Definition Size (env : Env) (c : t) (w : World) : res Z :=
  if fails env OpSize then Err (IOError OpSize)
  else match engine.Open (disk w) (sto c) engine.FileCommitlog with
       | Some (engine.Frames fs) => Ok (engine.byteLen fs)
       | _ => Err (IOError OpSize)
       end.

Section methods.
Context `{Externals}.

(** Modelled from the spec: [c.Add(key, status, bs)] puts the frame at the
    end of the commit log file and its entry in the index file and in the
    summary; on failure nothing is written ("either the append happened or it
    did not", spec section 7). *)
Definition Add (env : Env) (c : t) (key : string) (status : model.status)
    (bs : ByteStream) (w : World) : option error * t * World :=
  if fails env (OpAdd key) then (Some (IOError (OpAdd key)), c, w)
  else match disk w !! sto c with
       | Some d =>
           match engine.commitlogFile d, engine.indexFile d with
           | Some (engine.Frames fs), Some (engine.Entries es) =>
               let e := {| index.Key := Hash32 key; index.Status := status;
                           index.Offset := engine.byteLen fs |} in
               let d' := engine.setFile engine.FileIndex (Some (engine.Entries (es ++ [e])))
                           (engine.setFile engine.FileCommitlog
                              (Some (engine.Frames (fs ++ [bs]))) d) in
               (None, setSummary (index.Add e (summary c)) c,
                setDisk (<[sto c := d']> (disk w)) w)
           | _, _ => (Some (IOError (OpAdd key)), c, w)
           end
       | None => (Some (IOError (OpAdd key)), c, w)
       end.

(** Modelled from the spec: [c.Get(key)] is the frame the summary records for
    the key's hash, nil when the summary has no entry or the frame cannot be
    read. *)
Definition Get (c : t) (key : string) (w : World) : option ByteStream :=
  match index.LookUp (summary c) (Hash32 key) with
  | Some e =>
      match engine.Open (disk w) (sto c) engine.FileCommitlog with
      | Some f => engine.Read f (index.Offset e)
      | None => None
      end
  | None => None
  end.

End methods.
End Commitlog.

(** Modelled from the spec: [newIndexReader(&sto).LoadIndex()] rebuilds the
    summary from the index file of the directory. *)
Definition LoadIndex (env : Env) (sto : engine.Storage) (w : World)
    : res (gmap N index.Entry) :=
  if fails env OpLoadIndex then Err (IOError OpLoadIndex)
  else match engine.Open (disk w) sto engine.FileIndex with
       | Some (engine.Entries es) => Ok (index.ofEntries es)
       | _ => Err (IOError OpLoadIndex)
       end.

(** What an operation yields once the environment had its say: nothing when
    the environment makes it fail. *)
Definition attempt {A : Type} (env : Env) (op : Op) (x : option A) : option A :=
  if fails env op then None else x.

(** * Package db: data holders *)
Module dataHolder.

(** [type dataHolder struct] (db.go, lines 34-39). *)
Record t := {
  path : string;
  sto : engine.Storage;
  summary : gmap N index.Entry;
  bloomfilter : util.BloomFilter
}.

(** [dataHolder.Get(position)] (db.go, lines 131-151), which returns a stream
    pointer and an error.  Both failures are logged and answered with
    [(nil, nil)]. *)
Definition Get (d : t) (position : Z) (w : World)
    : (option ByteStream * option error) * World :=
  match engine.Open (disk w) (sto d) engine.FileData with
  | None => ((None, None), slog (Errorf ErrFileCorrupted (path d)) w)
  | Some freader =>
      match engine.Read freader position with
      | None => ((None, None), slog (Errorf ErrFileCorrupted (path d)) w)
      | Some b => ((Some b, None), w)
      end
  end.

End dataHolder.

Section db.
Context `{Externals}.

(** The loop of [newDataHolder] that populates the bloom filter from the
    index table. *)
Definition populateBloom (bf : util.BloomFilter) (table : gmap N index.Entry)
    : util.BloomFilter :=
  foldl (fun bf v => BloomFilter.Add bf (Itoa (index.Key v))) bf (index.values table).

(** [newDataHolder(sto, dbPath, bloomFilterFp)] (db.go, lines 41-93).  Each
    step that fails returns its error at once, the steps before it having
    taken effect on the disk; the error of the last step, the write of the
    filter's bytes, is dropped. *)
Definition newDataHolder (env : Env) (sto : engine.Storage) (dbPath : string)
    (bloomFilterFp : float32) (w : World) : res dataHolder.t * World :=
  let cPath := filepath.Join dbPath FolderCommitlog in
  let uTime := pretty (now env) in
  let newPath := filepath.Join dbPath uTime in
  match attempt env OpRenameFile
          (engine.Rename (disk w) sto engine.FileCommitlog engine.FileData) with
  | None => (Err (IOError OpRenameFile), w)
  | Some d1 =>
  match attempt env OpRenameDir (engine.RenameDir d1 cPath newPath) with
  | None => (Err (IOError OpRenameDir), setDisk d1 w)
  | Some d2 =>
  match attempt env OpOpenFile (engine.OpenFile d2 newPath) with
  | None => (Err (IOError OpOpenFile), setDisk d2 w)
  | Some dsto =>
  match LoadIndex env dsto (setDisk d2 w) with
  | Err e => (Err e, setDisk d2 w)
  | Ok summary =>
      let table := index.GetTable summary in
      let bf := populateBloom (BloomFilter.New (index.Count summary) bloomFilterFp) table in
      match attempt env OpCreateBloom (engine.Create d2 dsto engine.FileBloomFilter) with
      | None => (Err (IOError OpCreateBloom), setDisk d2 w)
      | Some d3 =>
          let b := bloomBytes bf in
          let d4 := match attempt env OpAppendBloom
                            (engine.Append d3 dsto engine.FileBloomFilter b) with
                    | Some d => d
                    | None => d3
                    end in
          (Ok {| dataHolder.path := newPath; dataHolder.sto := dsto;
                 dataHolder.summary := summary; dataHolder.bloomfilter := bf |},
           setDisk d4 w)
      end
  end end end end.

(** [openDataHolder(path)] (db.go, lines 95-129).  A bloom filter file that
    opens but cannot be read leaves the zero filter in place and is not
    reported. *)
Definition openDataHolder (env : Env) (path : string) (w : World) : res dataHolder.t :=
  match attempt env OpOpenFile (engine.OpenFile (disk w) path) with
  | None => Err (IOError OpOpenFile)
  | Some dsto =>
  match LoadIndex env dsto w with
  | Err e => Err e
  | Ok summary =>
  match attempt env OpOpenBloom (engine.Open (disk w) dsto engine.FileBloomFilter) with
  | None => Err (IOError OpOpenBloom)
  | Some bfreader =>
      let pos := 0 in
      let bf := match engine.Read bfreader pos with
                | Some b => bloomOfBytes b
                | None => util.zero
                end in
      Ok {| dataHolder.path := path; dataHolder.sto := dsto;
            dataHolder.summary := summary; dataHolder.bloomfilter := bf |}
  end end end.

End db.

(** * Package db: the database *)

(** Modelled from the spec: [DatabaseDescriptor] is missing; the options are
    those of spec section 6.  The code converts [MaxDataLogSize] and
    [MaxCacheSize] with [int64(...)]. *)
Record DatabaseDescriptor := {
  Name : string;
  Path : string;
  MaxDataLogSize : Z;
  MaxCacheSize : Z;
  BloomFilterFp : float32;
  CronExp : string;
  Mode : string
}.

(** [type Database struct] (db.go, lines 24-32); the lock [mu] and the
    channel [compFinish] carry no data. *)
Record Database := {
  Descriptor : DatabaseDescriptor;
  commitlog : Commitlog.t;
  dhList : list dataHolder.t;
  cache : cache.Cache
}.

(** Assignments to the fields of the struct. *)
Definition setCache (c : cache.Cache) (db : Database) : Database :=
  {| Descriptor := Descriptor db; commitlog := commitlog db; dhList := dhList db; cache := c |}.

Definition setCommitlog (c : Commitlog.t) (db : Database) : Database :=
  {| Descriptor := Descriptor db; commitlog := c; dhList := dhList db; cache := cache db |}.

Definition setDhList (l : list dataHolder.t) (db : Database) : Database :=
  {| Descriptor := Descriptor db; commitlog := commitlog db; dhList := l; cache := cache db |}.

Section database.
Context `{Externals}.

(** [NewDatabase(descriptor)] (db.go, lines 258-271), without the registration
    with the scheduler. *)
Definition NewDatabase (descriptor : DatabaseDescriptor) (w : World) : Database * World :=
  let '(c, w') := Commitlog.New (Path descriptor) w in
  ({| Descriptor := descriptor; commitlog := c; dhList := [];
      cache := cache.NewCache (int64 (MaxCacheSize descriptor)) |}, w').

(** The rollover inside [InsertData] (db.go, lines 172-178): [newDataHolder],
    then the new holder is appended to [dhList] and a fresh commit log is
    installed. *)
Definition rollover (env : Env) (db : Database) (w : World)
    : option error * Database * World :=
  match newDataHolder env (Commitlog.sto (commitlog db)) (Path (Descriptor db))
          (BloomFilterFp (Descriptor db)) w with
  | (Err e, w') => (Some e, db, w')
  | (Ok ndh, w') =>
      let '(c, w'') := Commitlog.New (Path (Descriptor db)) w' in
      (None, setCommitlog c (setDhList (dhList db ++ [ndh]) db), w'')
  end.

(** [db.InsertData(df)] (db.go, lines 154-186), which returns an error. *)
Definition InsertData (env : Env) (db : Database) (df : model.DataDefinition)
    (w : World) : option error * Database * World :=
  let hKey := Hash32 (model.Key df) in
  let bs := ToByteStream df in
  (* Put in cache *)
  let db := setCache (cache.Put (cache db) hKey bs) db in
  (* Get last position in commitlog *)
  match Commitlog.Size env (commitlog db) w with
  | Err e => (Some e, db, w)
  | Ok size =>
      (* Check if commitlog has the max file size *)
      let '(err, db, w) :=
        if decide (int64 (size + int64 (Z.of_N (model.Size df)))
                   > int64 (MaxDataLogSize (Descriptor db)))
        then rollover env db w
        else (None, db, w) in
      match err with
      | Some e => (Some e, db, w)
      | None =>
          match Commitlog.Add env (commitlog db) (model.Key df) (model.Status df) bs w with
          | (Some e, _, w') => (Some e, db, w')
          | (None, c, w') => (None, setCommitlog c db, w')
          end
      end
  end.

(** The loop of [GetDataByKey] over the data holders (db.go, lines 214-224):
    [searchDataFiles db hkey strKey n] runs it for [curr] from [n - 1] down
    to 0.  The first component is [None] when the Go code panics. *)
Fixpoint searchDataFiles (db : Database) (hkey : N) (strKey : string) (curr : nat)
    (w : World) : option (option model.DataDefinition * bool) * World :=
  match curr with
  | O => (Some (None, false), w)
  | S i =>
      match dhList db !! i with
      | None => (None, w)
      | Some dh =>
          if BloomFilter.Contains (dataHolder.bloomfilter dh) strKey then
            match index.LookUp (dataHolder.summary dh) hkey with
            | Some e =>
                let '((bs, err), w') := dataHolder.Get dh (index.Offset e) w in
                match err with
                | Some _ => (Some (None, false), w')
                | None =>
                    match NewDataDefinitionFromByteStream bs with
                    | Some d => (Some (Some d, true), w')
                    | None => (None, w')
                    end
                end
            | None => searchDataFiles db hkey strKey i w
            end
          else searchDataFiles db hkey strKey i w
      end
  end.

(** The body of [GetDataByKey] (db.go, lines 195-226); [None] in the first
    component when it panics. *)
Definition GetDataByKey_body (db : Database) (key : string) (w : World)
    : option (option model.DataDefinition * bool) * Database * World :=
  let hkey := Hash32 key in
  (* Search for given key in cache *)
  let '(c, ca) := cache.Get (cache db) hkey in
  let db := setCache ca db in
  match c with
  | Some c =>
      ((fun d => (Some d, true)) <$> NewDataDefinitionFromByteStream (Some c), db, w)
  | None =>
      (* Search in commitlog *)
      match Commitlog.Get (commitlog db) key w with
      | Some bs =>
          let db := setCache (cache.Put (cache db) hkey bs) db in
          ((fun d => (Some d, true)) <$> NewDataDefinitionFromByteStream (Some bs), db, w)
      | None =>
          (* Search in data files, from the newest dataholder until the oldest *)
          let strKey := Itoa hkey in
          let '(r, w') := searchDataFiles db hkey strKey (length (dhList db)) w in
          (r, db, w')
      end
  end.

(** [db.GetDataByKey(key)] (db.go, lines 189-227), which returns a record
    pointer and a bool: the deferred [recover()] turns a panic of the body
    into the zero results [(nil, false)]. *)
Definition GetDataByKey (db : Database) (key : string) (w : World)
    : (option model.DataDefinition * bool) * Database * World :=
  let '(r, db', w') := GetDataByKey_body db key w in
  (default (None, false) r, db', w').

End database.

(** * Package db: compaction *)
Module tombstoneMark.

(** [type tombstoneMark struct { path string; index.Entry }]. *)
Record t := {
  path : string;
  Entry : index.Entry
}.

Definition Key (tb : t) : N := index.Key (Entry tb).

End tombstoneMark.

(** The loop shared by the two collectors: the entries of a table whose
    status is [DataDefinitionRemoved], each tagged with the owner's path. *)
Definition removedIn (owner : string) (table : gmap N index.Entry)
    : list tombstoneMark.t :=
  foldl (fun acc v =>
           if decide (index.Status v = model.DataDefinitionRemoved)
           then acc ++ [ {| tombstoneMark.path := owner; tombstoneMark.Entry := v |} ]
           else acc)
        [] (index.values table).

(** [getTombstonesFromCommitlog(db)]. *)
Definition getTombstonesFromCommitlog (db : Database) : list tombstoneMark.t :=
  removedIn (Commitlog.filepath (commitlog db))
            (index.GetTable (Commitlog.summary (commitlog db))).

(** [geTombstonesFromDb(db)].  The Go code collects each holder's tombstones
    in a goroutine of its own and appends the results as they arrive on a
    channel; here each goroutine sees its own holder and the results arrive in
    list order.  The callers only test membership in the result. *)
Definition geTombstonesFromDb (db : Database) : list tombstoneMark.t :=
  foldl (fun tombstones dh =>
           tombstones ++ removedIn (dataHolder.path dh)
                                   (index.GetTable (dataHolder.summary dh)))
        [] (dhList db).

(** [containsKey(key, list)]. *)
Fixpoint containsKey (key : N) (list : list tombstoneMark.t) : bool :=
  match list with
  | [] => false
  | tb :: rest => if decide (tombstoneMark.Key tb = key) then true else containsKey key rest
  end.

(** [dhContainsAnyTombstone(dh, list)]. *)
Fixpoint dhContainsAnyTombstone (dh : dataHolder.t) (list : list tombstoneMark.t) : bool :=
  match list with
  | [] => false
  | v :: rest =>
      match index.GetTable (dataHolder.summary dh) !! tombstoneMark.Key v with
      | Some _ => true
      | None => dhContainsAnyTombstone dh rest
      end
  end.

Section compaction.
Context `{Externals}.

(** The inner loop of [doCompaction] over the index table of one holder.  The
    boolean is false when the goroutine panicked: a frame that cannot be read
    comes back nil from [dataHolder.Get] and is dereferenced.  The error of
    [commitlog.Add] is dropped, as in the Go text. *)
Fixpoint reinsert (env : Env) (dh : dataHolder.t) (tombstones : list tombstoneMark.t)
    (table : list index.Entry) (db : Database) (w : World) : bool * Database * World :=
  match table with
  | [] => (true, db, w)
  | v :: rest =>
      if containsKey (index.Key v) tombstones then reinsert env dh tombstones rest db w
      else
        let '((bs, _), w1) := dataHolder.Get dh (index.Offset v) w in
        match NewDataDefinitionFromByteStream bs, bs with
        | Some df, Some b =>
            let '(_, c, w2) :=
              Commitlog.Add env (commitlog db) (model.Key df) (model.Status df) b w1 in
            reinsert env dh tombstones rest (setCommitlog c db)
                     (slog (Infof "add:%s" (model.Key df)) w2)
        | _, _ => (false, db, w1)
        end
  end.

(** The outer loop of [doCompaction] over [db.dhList]. *)
Fixpoint compactHolders (env : Env) (tombstones : list tombstoneMark.t)
    (dhs : list dataHolder.t) (db : Database) (w : World) : bool * Database * World :=
  match dhs with
  | [] => (true, db, w)
  | dh :: rest =>
      (* check if dataHolder has any tombstone *)
      if dhContainsAnyTombstone dh tombstones then
        let table := index.GetTable (dataHolder.summary dh) in
        match reinsert env dh tombstones (index.values table) db w with
        | (true, db', w') =>
            compactHolders env tombstones rest db'
              (setDisk (engine.DeleteDir (disk w') (dataHolder.path dh)) w')
        | (false, db', w') => (false, db', w')
        end
      else compactHolders env tombstones rest db w
  end.

(** [doCompaction(db)], without the notification goroutine, the scheduler
    bookkeeping and the completion signal.  The boolean tells whether the run
    reached its end. *)
Definition doCompaction (env : Env) (db : Database) (w : World)
    : bool * Database * World :=
  (* get all tombstones from database, then from commitlog *)
  let tombstones := geTombstonesFromDb db ++ getTombstonesFromCommitlog db in
  compactHolders env tombstones (dhList db) db w.

End compaction.

(** * A reference instance of the externals

    Used to run the model on concrete inputs.  The hash is 32-bit FNV-1a; a
    record is framed as status, timestamp, size, key length, key, payload,
    with little-endian fixed-width numbers. *)
Module reference.

Definition byteOfN (n : N) : Byte.byte := default Byte.x00 (Byte.of_N (n `mod` 256)%N).

Fixpoint leBytes (width : nat) (n : N) : list Byte.byte :=
  match width with
  | O => []
  | S width' => byteOfN n :: leBytes width' (n / 256)%N
  end.

Fixpoint leValue (bs : list Byte.byte) : N :=
  match bs with
  | [] => 0%N
  | b :: rest => (Byte.to_N b + 256 * leValue rest)%N
  end.

Definition fnv32a (key : string) : N :=
  foldl (fun h b => (N.lxor h (Byte.to_N b) * 16777619) `mod` 2 ^ 32)%N
        2166136261%N (String.list_byte_of_string key).

Definition statusByte (s : model.status) : Byte.byte :=
  match s with
  | model.DataDefinitionActive => Byte.x01
  | model.DataDefinitionRemoved => Byte.x02
  end.

Definition encode (df : model.DataDefinition) : ByteStream :=
  let key := String.list_byte_of_string (model.Key df) in
  statusByte (model.Status df)
  :: leBytes 8 (model.Timestamp df) ++ leBytes 4 (model.Size df)
  ++ leBytes 4 (N.of_nat (length key)) ++ key ++ model.Payload df.

Definition decode (bs : ByteStream) : model.DataDefinition :=
  let st := match bs with
            | b :: _ => if decide (Byte.to_N b = 2%N) then model.DataDefinitionRemoved
                        else model.DataDefinitionActive
            | [] => model.DataDefinitionActive
            end in
  let klen := N.to_nat (leValue (take 4 (drop 13 bs))) in
  {| model.Key := String.string_of_list_byte (take klen (drop 17 bs));
     model.Status := st;
     model.Timestamp := leValue (take 8 (drop 1 bs));
     model.Payload := drop (17 + klen) bs;
     model.Size := leValue (take 4 (drop 9 bs)) |}.

(** Eight bits per expected key (at least eight), two hash functions. *)
Definition shape (n : N) (fp : float32) : N * N := (8 * n + 8, 2)%N.

Definition bucketsOf (m k : N) (key : string) : list N :=
  if decide (m = 0%N) then []
  else (fun i => (fnv32a key + N.of_nat i * (fnv32a (key +:+ "#") + 1)) `mod` m)%N
       <$> seq 0 (N.to_nat k).

Definition bloomEncode (bf : util.BloomFilter) : ByteStream :=
  leBytes 8 (util.size bf) ++ leBytes 8 (util.hashCount bf)
  ++ mjoin (leBytes 8 <$> elements (util.bitset bf)).

Fixpoint words (n : nat) (bs : list Byte.byte) : list N :=
  match n with
  | O => []
  | S n' =>
      match bs with
      | [] => []
      | _ => leValue (take 8 bs) :: words n' (drop 8 bs)
      end
  end.

Definition bloomDecode (bs : ByteStream) : util.BloomFilter :=
  {| util.size := leValue (take 8 bs);
     util.hashCount := leValue (take 8 (drop 8 bs));
     util.bitset := list_to_set (words (length bs) (drop 16 bs)) |}.

#[global] Instance externals : Externals := {|
  Hash32 := fnv32a;
  ToByteStream := encode;
  FromByteStream := decode;
  bloomShape := shape;
  bloomBuckets := bucketsOf;
  bloomBytes := bloomEncode;
  bloomOfBytes := bloomDecode
|}.

End reference.


(** * Package db: opening a database *)
Module ioutil.

(** What is left of [s] after the prefix [p], when [s] starts with [p]. *)
Fixpoint stripPrefix (p s : string) : option string :=
  match p, s with
  | EmptyString, _ => Some s
  | String a p', String b s' => if decide (a = b) then stripPrefix p' s' else None
  | String _ _, EmptyString => None
  end.

(** A name that can stand for one path component. *)
Definition isName (n : string) : bool :=
  negb (bool_decide (n = "")) && forallb (fun c => negb (bool_decide (c = Ascii.Ascii true true true true false true false false)))
                                         (String.list_ascii_of_string n).

(** The name under which the directory [key] of the world is an entry of the
    directory [dirname]: [key] is [dirname/name]. *)
Definition entryName (dirname key : string) : option string :=
  stripPrefix (dirname +:+ "/") key ≫= fun n => if isName n then Some n else None.

(** The order of file names: Go compares strings byte by byte. *)
Definition nameLe (a b : string) : Prop := String.leb a b = true.

#[global] Instance nameLe_dec (a b : string) : Decision (nameLe a b).
Proof. unfold nameLe. apply _. Defined.

(** Modelled from the spec: [ioutil.ReadDir(dirname)] returns the entries of
    the directory sorted by file name.  The world holds the directories that
    hold files; the entries of [dirname] are the names of the world's
    directories directly below it.  The error of the call, which [LoadData]
    drops, is left out. *)
Definition ReadDir (disk : gmap string engine.Dir) (dirname : string) : list string :=
  merge_sort nameLe (omap (entryName dirname) (map_to_list disk).*1).

End ioutil.

(** [regexp.MatchString("^([0-9]{19})$", name)]: the name is made of exactly
    19 decimal digits. *)
Definition isDigit (c : Ascii.ascii) : bool :=
  (48 <=? Ascii.N_of_ascii c)%N && (Ascii.N_of_ascii c <=? 57)%N.

Definition matchesDataDir (name : string) : bool :=
  bool_decide (String.length name = 19%nat) && forallb isDigit (String.list_ascii_of_string name).

Section open.
Context `{Externals}.

(** Modelled from the spec: the summary that [c.LoadData()] rebuilds "by
    scanning frames" (spec section 3): one entry per frame, under the hash of
    the key the frame decodes to, at the offset where the frame starts. *)
Fixpoint replay (frames : list ByteStream) (pos : Z) (s : gmap N index.Entry)
    : gmap N index.Entry :=
  match frames with
  | [] => s
  | b :: rest =>
      let df := FromByteStream b in
      replay rest (pos + engine.frameLen b)
        (index.Add {| index.Key := Hash32 (model.Key df);
                      index.Status := model.Status df;
                      index.Offset := pos |} s)
  end.

(** Modelled from the spec: [c.LoadData()], the method of the commit log that
    [OpenDatabase] calls: "on open, replays all frames to rebuild the
    IndexSummary" (spec section 4.5). *)
Definition Commitlog_LoadData (c : Commitlog.t) (w : World) : Commitlog.t :=
  match engine.Open (disk w) (Commitlog.sto c) engine.FileCommitlog with
  | Some (engine.Frames fs) => Commitlog.setSummary (replay fs 0 ∅) c
  | _ => c
  end.

(** The loop of [LoadData] (db.go, lines 232-240) over the entries of the
    database directory.  An error of [openDataHolder] ends in [slog.Fatalf],
    which ends the process: the result is [None]. *)
Fixpoint loadHolders (env : Env) (flist : list string) (db : Database) (w : World)
    : option Database :=
  match flist with
  | [] => Some db
  | v :: rest =>
      if matchesDataDir v then
        match openDataHolder env (filepath.Join (Path (Descriptor db)) v) w with
        | Err _ => None
        | Ok dh => loadHolders env rest (setDhList (dhList db ++ [dh]) db) w
        end
      else loadHolders env rest db w
  end.

(** [db.LoadData()] (db.go, lines 230-241). *)
Definition LoadData (env : Env) (db : Database) (w : World) : option Database :=
  let flist := ioutil.ReadDir (disk w) (Path (Descriptor db)) in
  loadHolders env flist db w.

(** [OpenDatabase(descriptor)] (db.go, lines 274-279). *)
Definition OpenDatabase (env : Env) (descriptor : DatabaseDescriptor) (w : World)
    : option Database * World :=
  let '(db, w) := NewDatabase descriptor w in
  let db := setCommitlog (Commitlog_LoadData (commitlog db) w) db in
  (LoadData env db w, w).

End open.
(** * The read path *)
Section read_path.
Context `{Externals}.

(** The entry a holder offers for a key hash: its bloom filter must contain
    the stringified hash and its summary must have the hash. *)
Definition admits (hkey : N) (dh : dataHolder.t) : option index.Entry :=
  if BloomFilter.Contains (dataHolder.bloomfilter dh) (Itoa hkey)
  then index.LookUp (dataHolder.summary dh) hkey
  else None.

(** The first holder of a list (given newest first) that offers an entry. *)
Fixpoint firstAdmitting (hkey : N) (newestFirst : list dataHolder.t)
    : option (dataHolder.t * index.Entry) :=
  match newestFirst with
  | [] => None
  | dh :: older =>
      match admits hkey dh with
      | Some e => Some (dh, e)
      | None => firstAdmitting hkey older
      end
  end.

(** The frame of an entry in the data file of its holder, when it can be read. *)
Definition frameAt (w : World) (dh : dataHolder.t) (e : index.Entry) : option ByteStream :=
  engine.Open (disk w) (dataHolder.sto dh) engine.FileData
    ≫= fun f => engine.Read f (index.Offset e).

(** The lookup order in the words of spec section 4.8: cache, commit log,
    data files newest first behind their bloom filters; the first store that
    has the key decides, and a frame that cannot be read ends the lookup. *)
Definition lookupInOrder (db : Database) (key : string) (w : World)
    : option model.DataDefinition * bool :=
  let hkey := Hash32 key in
  match cache.find hkey (cache.items (cache db)) with
  | Some c => (Some (FromByteStream c), true)
  | None =>
      match Commitlog.Get (commitlog db) key w with
      | Some bs => (Some (FromByteStream bs), true)
      | None =>
          match firstAdmitting hkey (reverse (dhList db)) with
          | Some (dh, e) =>
              match frameAt w dh e with
              | Some b => (Some (FromByteStream b), true)
              | None => (None, false)
              end
          | None => (None, false)
          end
      end
  end.

End read_path.

(** * The write path, step by step *)
Section write_path.
Context `{Externals}.

(** The database value after the cache put that opens [InsertData]. *)
Definition cached (db : Database) (df : model.DataDefinition) : Database :=
  setCache (cache.Put (cache db) (Hash32 (model.Key df)) (ToByteStream df)) db.

(** The rollover test of [InsertData] for a commit log of [size] bytes. *)
Definition rotates (db : Database) (df : model.DataDefinition) (size : Z) : Prop :=
  int64 (size + int64 (Z.of_N (model.Size df))) > int64 (MaxDataLogSize (Descriptor db)).

#[global] Instance rotates_dec (db : Database) (df : model.DataDefinition) (size : Z) :
  Decision (rotates db df size).
Proof. unfold rotates. apply _. Defined.

(** The last step of [InsertData]: the append and the error check after it. *)
Definition appendStep (env : Env) (db : Database) (df : model.DataDefinition) (w : World)
    : option error * Database * World :=
  match Commitlog.Add env (commitlog db) (model.Key df) (model.Status df)
          (ToByteStream df) w with
  | (Some e, _, w') => (Some e, db, w')
  | (None, c, w') => (None, setCommitlog c db, w')
  end.

(** The commit log directory holds a file of frames [fs] and an index file. *)
Definition logFrames (w : World) (c : Commitlog.t) (fs : list ByteStream) : Prop :=
  exists d es, disk w !! Commitlog.sto c = Some d
               /\ engine.commitlogFile d = Some (engine.Frames fs)
               /\ engine.indexFile d = Some (engine.Entries es).

(** A database value whose commit log lives where [NewCommitLog] puts it. *)
Definition logAtHome (db : Database) : Prop :=
  Commitlog.sto (commitlog db) = filepath.Join (Path (Descriptor db)) FolderCommitlog.

End write_path.

(** In a summary built by [Add], every entry sits under its own key hash. *)
Definition keyed (s : gmap N index.Entry) : Prop :=
  forall k v, s !! k = Some v -> index.Key v = k.


(** * Compaction, in the words of spec section 4.9 *)
Section compaction_spec.
Context `{Externals}.


(** The tombstones a run starts from. *)
Definition tombstonesOf (db : Database) : list tombstoneMark.t :=
  geTombstonesFromDb db ++ getTombstonesFromCommitlog db.

(** A data file is affected when its summary has the key hash of a tombstone. *)
Definition affected (T : list tombstoneMark.t) (dh : dataHolder.t) : Prop :=
  exists tb, tb ∈ T /\ is_Some (dataHolder.summary dh !! tombstoneMark.Key tb).


(** The survivors of a data file: its index entries whose key hash is not
    tombstoned, in table order. *)
Definition survivors (T : list tombstoneMark.t) (dh : dataHolder.t) : list index.Entry :=
  filter (fun v => containsKey (index.Key v) T = false)
         (index.values (dataHolder.summary dh)).

(** The frames of the survivors that can be read from the data file. *)
Definition survivorFrames (w : World) (T : list tombstoneMark.t) (dh : dataHolder.t)
    : list ByteStream :=
  omap (frameAt w dh) (survivors T dh).


(** The frames a run rewrites: those of the survivors of every affected data
    file, in list order. *)
Definition rewritten (w : World) (T : list tombstoneMark.t) (dhs : list dataHolder.t)
    : list ByteStream :=
  dhs ≫= fun dh => if dhContainsAnyTombstone dh T then survivorFrames w T dh else [].

(** The index of a data file agrees with its frames: the key of the record
    framed at an entry's offset hashes to the entry's key hash. *)
Definition consistent (w : World) (dh : dataHolder.t) : Prop :=
  forall v b, v ∈ index.values (dataHolder.summary dh) ->
              frameAt w dh v = Some b ->
              Hash32 (model.Key (FromByteStream b)) = index.Key v.

(** Two database values that differ at most in the summary of the commit log. *)
Definition sameShape (db db' : Database) : Prop :=
  dhList db' = dhList db /\ cache db' = cache db /\ Descriptor db' = Descriptor db
  /\ Commitlog.sto (commitlog db') = Commitlog.sto (commitlog db)
  /\ Commitlog.filepath (commitlog db') = Commitlog.filepath (commitlog db).

(** No directory that is absent from the first world exists in the second. *)
Definition noRevival (w w' : World) : Prop :=
  forall p, disk w !! p = None -> disk w' !! p = None.

(** Outside the directory [home], the second world has the directories of the
    first or has lost them. *)
Definition shrinks (home : string) (w w' : World) : Prop :=
  forall p, p ≠ home -> disk w' !! p = disk w !! p \/ disk w' !! p = None.

(** The file of frames of the commit log directory. *)
Definition logFile (w : World) (c : Commitlog.t) : option engine.File :=
  engine.Open (disk w) (Commitlog.sto c) engine.FileCommitlog.

End compaction_spec.

(** * The state a database can be opened from *)
Section durability.
Context `{Externals}.

(** The summary of the commit log is the one its index file yields. *)
Definition logInSync (w : World) (c : Commitlog.t) : Prop :=
  exists d fs es,
    disk w !! Commitlog.sto c = Some d
    /\ engine.commitlogFile d = Some (engine.Frames fs)
    /\ engine.indexFile d = Some (engine.Entries es)
    /\ Commitlog.summary c = index.ofEntries es.

(** The index entries of a file of frames that starts at byte [pos]. *)
Fixpoint entriesOf (frames : list ByteStream) (pos : Z) : list index.Entry :=
  match frames with
  | [] => []
  | b :: rest =>
      {| index.Key := Hash32 (model.Key (FromByteStream b));
         index.Status := model.Status (FromByteStream b);
         index.Offset := pos |} :: entriesOf rest (pos + engine.frameLen b)
  end.

(** The index file and the summary of the commit log are those of its frames. *)
Definition logReplays (w : World) (c : Commitlog.t) : Prop :=
  exists d fs,
    disk w !! Commitlog.sto c = Some d
    /\ engine.commitlogFile d = Some (engine.Frames fs)
    /\ engine.indexFile d = Some (engine.Entries (entriesOf fs 0))
    /\ Commitlog.summary c = index.ofEntries (entriesOf fs 0).

(** An environment in which opening a data holder does not fail. *)
Definition opens (env : Env) : Prop :=
  fails env OpOpenFile = false /\ fails env OpLoadIndex = false
  /\ fails env OpOpenBloom = false.

(** Opening the directory of a holder gives the holder back. *)
Definition reloads (w : World) (dh : dataHolder.t) : Prop :=
  forall env, opens env -> openDataHolder env (dataHolder.path dh) w = Ok dh.

(** The strict order of file names. *)
Definition nameLt (a b : string) : Prop := String.ltb a b = true.

(** The names of the data directories of a database directory, in the order
    in which [LoadData] meets them. *)
Definition dataDirs (disk : gmap string engine.Dir) (dbPath : string) : list string :=
  filter (fun n => matchesDataDir n = true) (ioutil.ReadDir disk dbPath).

(** The data file list is the list of the data directories on disk. *)
Definition listed (db : Database) (w : World) : Prop :=
  dataHolder.path <$> dhList db
  = filepath.Join (Path (Descriptor db)) <$> dataDirs (disk w) (Path (Descriptor db)).

(** A database value that its directory gives back: the commit log and every
    data holder can be reloaded from disk, and no data directory is missing
    from the list. *)
Definition persistent (db : Database) (w : World) : Prop :=
  logAtHome db
  /\ Commitlog.filepath (commitlog db) = Commitlog.sto (commitlog db)
  /\ logReplays w (commitlog db)
  /\ Forall (reloads w) (dhList db)
  /\ listed db w.

(** The database value that [OpenDatabase] is to return for a live one: the
    same, with an empty cache. *)
Definition reopened (db : Database) : Database :=
  setCache (cache.NewCache (int64 (MaxCacheSize (Descriptor db)))) db.

(** A run of inserts that all succeed. *)
Fixpoint inserts (steps : list (Env * model.DataDefinition)) (s : Database * World)
    : option (Database * World) :=
  match steps with
  | [] => Some s
  | (env, df) :: rest =>
      match InsertData env s.1 df s.2 with
      | (None, db, w) => inserts rest (db, w)
      | (Some _, _, _) => None
      end
  end.

(** The name that a rotation at the clock reading of [env] gives the sealed
    directory. *)
Definition stamp (env : Env) : string := pretty (now env).

(** The frame of a record decodes to a record of the same key and status. *)
Definition keepsKeyStatus (df : model.DataDefinition) : Prop :=
  model.Key (FromByteStream (ToByteStream df)) = model.Key df
  /\ model.Status (FromByteStream (ToByteStream df)) = model.Status df.

End durability.

(** * Concrete runs

    States reached by running the model with the reference externals; they
    serve as inputs of the examples below. *)
Module scenario.

#[global] Instance Op_eq_dec : EqDecision Op.
Proof. solve_decision. Defined.

(** A record whose [Size] is the length of its frame. *)
Definition record (key : string) (st : model.status) (payload : ByteStream)
    : model.DataDefinition :=
  {| model.Key := key; model.Status := st; model.Timestamp := 0%N;
     model.Payload := payload;
     model.Size := N.of_nat (17 + String.length key + length payload) |}.

Definition descriptor (maxLog maxCache : Z) : DatabaseDescriptor :=
  {| Name := "db"; Path := "/db"; MaxDataLogSize := maxLog; MaxCacheSize := maxCache;
     BloomFilterFp := 0%N; CronExp := "@daily"; Mode := "" |}.

(** An environment in which nothing fails, and one in which one operation does. *)
Definition calm (t : Z) : Env := {| now := t; fails := fun _ => false |}.
Definition failing (t : Z) (op : Op) : Env :=
  {| now := t; fails := fun o => bool_decide (o = op) |}.

Definition blank : World := {| disk := ∅; log := [] |}.

Definition insert (env : Env) (df : model.DataDefinition) (s : Database * World)
    : Database * World :=
  let '(_, db, w) := InsertData env s.1 df s.2 in (db, w).

Definition active (key : string) (b : Byte.byte) : model.DataDefinition :=
  record key model.DataDefinitionActive [b].
Definition removed (key : string) : model.DataDefinition :=
  record key model.DataDefinitionRemoved [].

(** Frames of keys of one letter take 19 bytes (18 for a tombstone); with a
    threshold of 40 bytes a third insert rolls the commit log over. *)
Definition fresh : Database * World := NewDatabase (descriptor 40 8) blank.
Definition s1 : Database * World := insert (calm 1500000000000000001) (active "f" Byte.x01) fresh.
Definition s2 : Database * World := insert (calm 1500000000000000002) (active "g" Byte.x02) s1.
(** rollover: the data file holds "f" and "g", the commit log "h" *)
Definition s3 : Database * World := insert (calm 1500000000000000003) (active "h" Byte.x03) s2.
(** the tombstone of "f" lands in the commit log *)
Definition s4 : Database * World := insert (calm 1500000000000000004) (removed "f") s3.

(** The directory of the data file sealed on the way to [s3]. *)
Definition sealed : string := "/db/1500000000000000003".

(** A database with a cache of one entry and two data files that both hold
    the key "k": the older one its first version, the newer one its second. *)
Definition t0 : Database * World := NewDatabase (descriptor 40 1) blank.
Definition t1 : Database * World := insert (calm 1500000000000000001) (active "k" Byte.x01) t0.
Definition t2 : Database * World := insert (calm 1500000000000000002) (active "a" Byte.x0a) t1.
Definition t3 : Database * World := insert (calm 1500000000000000003) (active "k" Byte.x02) t2.
Definition t4 : Database * World := insert (calm 1500000000000000004) (active "b" Byte.x0b) t3.
Definition t5 : Database * World := insert (calm 1500000000000000005) (active "c" Byte.x0c) t4.

Definition older : string := "/db/1500000000000000003".
Definition newer : string := "/db/1500000000000000005".

(** The data file of a directory cut down to nothing. *)
Definition truncated (path : string) (w : World) : World :=
  setDisk (alter (engine.setFile engine.FileData (Some (engine.Frames []))) path (disk w)) w.

(** The data file of a directory removed. *)
Definition unlinked (path : string) (w : World) : World :=
  setDisk (alter (engine.setFile engine.FileData None) path (disk w)) w.


(** The insert of "h" into [s2] when the rename of the directory fails. *)
Definition rotationFails : option error * Database * World :=
  InsertData (failing 1500000000000000003 OpRenameDir) s2.1 (active "h" Byte.x03) s2.2.

(** The insert of "g" into [s1] when the append fails. *)
Definition appendFails : option error * Database * World :=
  InsertData (failing 1500000000000000002 (OpAdd "g")) s1.1 (active "g" Byte.x02) s1.2.

(** A record of 63 bytes inserted into [s1], whose threshold is 40 bytes. *)
Definition big : model.DataDefinition :=
  record "big" model.DataDefinitionActive (replicate 43 Byte.x00).
Definition oversized : option error * Database * World :=
  InsertData (calm 1500000000000000002) s1.1 big s1.2.

(** A compaction run on [s4], and one during which the append of "g" fails. *)
Definition compacted : bool * Database * World :=
  doCompaction (calm 1500000000000000005) s4.1 s4.2.

(** The holder at an index of a data file list, and the entry it offers. *)
Definition noHolder : dataHolder.t :=
  {| dataHolder.path := ""; dataHolder.sto := ""; dataHolder.summary := ∅;
     dataHolder.bloomfilter := util.zero |}.
Definition holderAt (s : Database * World) (i : nat) : dataHolder.t :=
  default noHolder (dhList s.1 !! i).
Definition noEntry : index.Entry :=
  {| index.Key := 0%N; index.Status := model.DataDefinitionActive; index.Offset := 0 |}.
Definition entryOf (dh : dataHolder.t) (key : string) : index.Entry :=
  default noEntry (dataHolder.summary dh !! Hash32 key).


(** The rotation of the commit log of [s2] on its own, and the holder it returns. *)
Definition rotation : res dataHolder.t * World :=
  newDataHolder (calm 1500000000000000003) "/db/commitlog" "/db" 0%N s2.2.
Definition sealedHolder : dataHolder.t :=
  match rotation.1 with Ok d => d | Err _ => noHolder end.


(** The run of [s1] to [s4] again with a cache of one entry, followed by a
    compaction run during which the append of "g" fails. *)
Definition u4 : Database * World :=
  insert (calm 1500000000000000004) (removed "f")
    (insert (calm 1500000000000000003) (active "h" Byte.x03)
       (insert (calm 1500000000000000002) (active "g" Byte.x02)
          (insert (calm 1500000000000000001) (active "f" Byte.x01)
             (NewDatabase (descriptor 40 1) blank)))).
Definition u5 : bool * Database * World :=
  doCompaction (failing 1500000000000000005 (OpAdd "g")) u4.1 u4.2.

End scenario.
(** * Lemmas on the read path *)
Section read_path_facts.
Context `{Externals}.

Lemma dataHolder_Get_frameAt (dh : dataHolder.t) (e : index.Entry) (w : World) :
  dataHolder.Get dh (index.Offset e) w =
  match frameAt w dh e with
  | Some b => ((Some b, None), w)
  | None => ((None, None), slog (Errorf ErrFileCorrupted (dataHolder.path dh)) w)
  end.
Proof.
  unfold dataHolder.Get, frameAt.
  destruct (engine.Open _ _ _) as [f|]; simpl; [|reflexivity].
  destruct (engine.Read f _); reflexivity.
Qed.

(** [dataHolder.Get] never returns an error: the test [err != nil] that
    follows it in [GetDataByKey] cannot succeed. *)
Lemma dataHolder_Get_no_error (dh : dataHolder.t) (pos : Z) (w : World) :
  (dataHolder.Get dh pos w).1.2 = None.
Proof.
  unfold dataHolder.Get.
  destruct (engine.Open _ _ _) as [f|]; simpl; [|reflexivity].
  destruct (engine.Read f _); reflexivity.
Qed.

(** The loop over indices is the scan of the reversed list. *)
Lemma searchDataFiles_scan (db : Database) (hkey : N) (n : nat) (w : World) :
  (n <= length (dhList db))%nat ->
  searchDataFiles db hkey (Itoa hkey) n w =
  match firstAdmitting hkey (reverse (take n (dhList db))) with
  | None => (Some (None, false), w)
  | Some (dh, e) =>
      match frameAt w dh e with
      | Some b => (Some (Some (FromByteStream b), true), w)
      | None => (None, slog (Errorf ErrFileCorrupted (dataHolder.path dh)) w)
      end
  end.
Proof.
  induction n as [|i IH]; intros Hn.
  - rewrite take_0. reflexivity.
  - destruct (lookup_lt_is_Some_2 (dhList db) i) as [dh Hdh]; [lia|].
    rewrite (take_S_r _ _ _ Hdh), reverse_snoc. simpl.
    rewrite Hdh. unfold admits.
    destruct (BloomFilter.Contains _ _); [|apply IH; lia].
    destruct (index.LookUp _ _) as [e|]; [|apply IH; lia].
    rewrite dataHolder_Get_frameAt.
    destruct (frameAt w dh e); reflexivity.
Qed.

Lemma GetDataByKey_result (db : Database) (key : string) (w : World) :
  (GetDataByKey db key w).1.1 = lookupInOrder db key w.
Proof.
  unfold GetDataByKey, GetDataByKey_body, lookupInOrder, cache.Get.
  destruct (cache.find _ _) as [c|]; simpl; [reflexivity|].
  destruct (Commitlog.Get _ _ _) as [bs|]; simpl; [reflexivity|].
  rewrite searchDataFiles_scan by reflexivity.
  rewrite firstn_all.
  destruct (firstAdmitting _ _) as [[dh e]|]; simpl; [|reflexivity].
  destruct (frameAt w dh e); reflexivity.
Qed.

End read_path_facts.

Section read_path_more.
Context `{Externals}.

Lemma firstAdmitting_None (hkey : N) (l : list dataHolder.t) :
  firstAdmitting hkey l = None <-> forall dh, dh ∈ l -> admits hkey dh = None.
Proof.
  induction l as [|d l IH]; simpl.
  - split; [intros _ dh Hin; inversion Hin | reflexivity].
  - destruct (admits hkey d) as [e|] eqn:Hd.
    + split; [discriminate|]. intros Hall.
      rewrite (Hall d) in Hd by (left). discriminate.
    + rewrite IH. split.
      * intros Hall dh Hin. apply elem_of_cons in Hin as [->|Hin]; auto.
      * intros Hall dh Hin. apply Hall. right. exact Hin.
Qed.

(** Holders that offer nothing are skipped. *)
Lemma firstAdmitting_skip (hkey : N) (newer rest : list dataHolder.t) :
  Forall (fun d => admits hkey d = None) newer ->
  firstAdmitting hkey (newer ++ rest) = firstAdmitting hkey rest.
Proof.
  induction 1 as [|d l Hd _ IH]; simpl; [reflexivity|].
  rewrite Hd. exact IH.
Qed.

Lemma setCache_same (db : Database) : setCache (cache db) db = db.
Proof. destruct db; reflexivity. Qed.

(** A lookup that misses the cache and the commit log leaves the database
    value as it was and is decided by the scan of the data files. *)
Lemma GetDataByKey_scan (db : Database) (key : string) (w : World) :
  cache.find (Hash32 key) (cache.items (cache db)) = None ->
  Commitlog.Get (commitlog db) key w = None ->
  GetDataByKey db key w =
  match firstAdmitting (Hash32 key) (reverse (dhList db)) with
  | None => ((None, false), db, w)
  | Some (dh, e) =>
      match frameAt w dh e with
      | Some b => ((Some (FromByteStream b), true), db, w)
      | None => ((None, false), db, slog (Errorf ErrFileCorrupted (dataHolder.path dh)) w)
      end
  end.
Proof.
  intros Hc Hl.
  unfold GetDataByKey, GetDataByKey_body, cache.Get.
  rewrite Hc. simpl. rewrite setCache_same, Hl.
  rewrite searchDataFiles_scan by reflexivity.
  rewrite firstn_all.
  destruct (firstAdmitting _ _) as [[dh e]|]; simpl; [|reflexivity].
  destruct (frameAt w dh e); reflexivity.
Qed.

End read_path_more.

(** * Lemmas on the write path *)
Section write_path_facts.
Context `{Externals}.

Lemma byteLen_app (fs gs : list ByteStream) :
  engine.byteLen (fs ++ gs) = engine.byteLen fs + engine.byteLen gs.
Proof. induction fs as [|b fs IH]; simpl; [reflexivity|]. rewrite IH. lia. Qed.

Lemma byteLen_nonneg (fs : list ByteStream) : 0 <= engine.byteLen fs.
Proof.
  induction fs as [|b fs IH]; simpl; [lia|].
  unfold engine.frameLen. lia.
Qed.

Lemma int64_small (z : Z) : - 2 ^ 63 <= z < 2 ^ 63 -> int64 z = z.
Proof.
  intros Hz. unfold int64.
  rewrite Z.mod_small by lia. lia.
Qed.

Lemma Size_logFrames (env : Env) (c : Commitlog.t) (w : World) (fs : list ByteStream) :
  logFrames w c fs -> fails env OpSize = false ->
  Commitlog.Size env c w = Ok (engine.byteLen fs).
Proof.
  intros (d & es & Hd & Hf & _) Hok.
  unfold Commitlog.Size, engine.Open. rewrite Hok, Hd. simpl. rewrite Hf. reflexivity.
Qed.

(** A successful append: what was on disk, and what is there afterwards. *)
Lemma Add_None (env : Env) (c c' : Commitlog.t) (key : string) (st : model.status)
    (bs : ByteStream) (w w' : World) :
  Commitlog.Add env c key st bs w = (None, c', w') ->
  exists fs,
    logFrames w c fs /\ logFrames w' c' (fs ++ [bs])
    /\ fails env (OpAdd key) = false
    /\ Commitlog.sto c' = Commitlog.sto c
    /\ Commitlog.filepath c' = Commitlog.filepath c
    /\ Commitlog.summary c'
       = index.Add {| index.Key := Hash32 key; index.Status := st;
                      index.Offset := engine.byteLen fs |} (Commitlog.summary c)
    /\ log w' = log w
    /\ forall p, p ≠ Commitlog.sto c -> disk w' !! p = disk w !! p.
Proof.
  unfold Commitlog.Add. intros Hadd.
  destruct (fails env (OpAdd key)); [discriminate|].
  destruct (disk w !! Commitlog.sto c) as [d|] eqn:Hd; [|discriminate].
  destruct (engine.commitlogFile d) as [[fs|]|] eqn:Hf; try discriminate.
  destruct (engine.indexFile d) as [[|es]|] eqn:Hi; try discriminate.
  injection Hadd as <- <-. exists fs. repeat split.
  - exists d, es. auto.
  - eexists _, _. simpl. rewrite lookup_insert_eq. split; [reflexivity|].
    split; reflexivity.
  - intros p Hp. simpl. apply lookup_insert_ne. congruence.
Qed.

(** A failed append changes nothing. *)
Lemma Add_Some (env : Env) (c c' : Commitlog.t) (key : string) (st : model.status)
    (bs : ByteStream) (w w' : World) (e : error) :
  Commitlog.Add env c key st bs w = (Some e, c', w') ->
  c' = c /\ w' = w /\ e = IOError (OpAdd key).
Proof.
  unfold Commitlog.Add. intros Hadd.
  destruct (fails env (OpAdd key)); [injection Hadd as <- <- <-; auto|].
  destruct (disk w !! Commitlog.sto c) as [d|]; [|injection Hadd as <- <- <-; auto].
  destruct (engine.commitlogFile d) as [[fs|]|]; try (injection Hadd as <- <- <-; auto).
  destruct (engine.indexFile d) as [[|es]|]; try (injection Hadd as <- <- <-; auto).
  discriminate.
Qed.

Lemma file_setFile_same (t : engine.FileType) (f : option engine.File) (d : engine.Dir) :
  engine.file (engine.setFile t f d) t = f.
Proof. destruct t; reflexivity. Qed.

Lemma file_setFile_other (t t' : engine.FileType) (f : option engine.File) (d : engine.Dir) :
  t <> t' -> engine.file (engine.setFile t f d) t' = engine.file d t'.
Proof. destruct t, t'; intros Hne; try reflexivity; contradiction. Qed.

Lemma Rename_Some (disk d1 : gmap string engine.Dir) (sto : engine.Storage)
    (a b : engine.FileType) :
  engine.Rename disk sto a b = Some d1 ->
  exists d f, disk !! sto = Some d /\ engine.file d a = Some f
              /\ d1 = <[sto := engine.setFile b (Some f) (engine.setFile a None d)]> disk.
Proof.
  unfold engine.Rename. intros Hr.
  destruct (disk !! sto) as [d|]; [|discriminate].
  destruct (engine.file d a) as [f|] eqn:Hf; [|discriminate].
  injection Hr as <-. eauto.
Qed.

Lemma RenameDir_Some (disk d2 : gmap string engine.Dir) (old new : string) :
  engine.RenameDir disk old new = Some d2 ->
  exists d, disk !! old = Some d /\ disk !! new = None
            /\ d2 = <[new := d]> (delete old disk).
Proof.
  unfold engine.RenameDir. intros Hr.
  destruct (disk !! old) as [d|]; [|discriminate].
  destruct (disk !! new) eqn:Hn; [discriminate|].
  injection Hr as <-. eauto.
Qed.

Lemma OpenFile_Some (disk : gmap string engine.Dir) (path : string) (sto : engine.Storage) :
  engine.OpenFile disk path = Some sto -> sto = path /\ is_Some (disk !! path).
Proof.
  unfold engine.OpenFile. destruct (disk !! path) eqn:Hp; [|discriminate].
  intros [= <-]. eauto.
Qed.

Lemma Create_Some (disk d3 : gmap string engine.Dir) (sto : engine.Storage)
    (t : engine.FileType) :
  engine.Create disk sto t = Some d3 ->
  exists d, disk !! sto = Some d
            /\ d3 = <[sto := engine.setFile t (Some (engine.Frames [])) d]> disk.
Proof.
  unfold engine.Create. destruct (disk !! sto) as [d|]; [|discriminate].
  intros [= <-]. eauto.
Qed.

Lemma Append_Some (disk d4 : gmap string engine.Dir) (sto : engine.Storage)
    (t : engine.FileType) (b : ByteStream) :
  engine.Append disk sto t b = Some d4 ->
  exists d fs, disk !! sto = Some d /\ engine.file d t = Some (engine.Frames fs)
               /\ d4 = <[sto := engine.setFile t (Some (engine.Frames (fs ++ [b]))) d]> disk.
Proof.
  unfold engine.Append. destruct (disk !! sto) as [d|]; [|discriminate].
  destruct (engine.file d t) as [[fs|]|] eqn:Hf; try discriminate.
  intros [= <-]. eauto.
Qed.

Lemma LoadIndex_Ok (env : Env) (sto : engine.Storage) (w : World) (s : gmap N index.Entry) :
  LoadIndex env sto w = Ok s ->
  exists es, engine.Open (disk w) sto engine.FileIndex = Some (engine.Entries es)
             /\ s = index.ofEntries es.
Proof.
  unfold LoadIndex. destruct (fails env OpLoadIndex); [discriminate|].
  destruct (engine.Open _ _ _) as [[|es]|]; try discriminate.
  intros [= <-]. eauto.
Qed.

(** The disk a successful [newDataHolder] leaves: the commit log directory has
    moved to the new path, where the bloom filter file was added. *)
Lemma newDataHolder_Ok_disk (env : Env) (sto : engine.Storage) (dbPath : string)
    (fp : float32) (w w' : World) (dh : dataHolder.t) :
  newDataHolder env sto dbPath fp w = (Ok dh, w') ->
  let cPath := filepath.Join dbPath FolderCommitlog in
  let newPath := filepath.Join dbPath (pretty (now env)) in
  exists d1 dir es fs,
    attempt env OpRenameFile (engine.Rename (disk w) sto engine.FileCommitlog engine.FileData)
      = Some d1
    /\ d1 !! cPath = Some dir /\ d1 !! newPath = None
    /\ engine.indexFile dir = Some (engine.Entries es)
    /\ disk w' = <[newPath := engine.setFile engine.FileBloomFilter
                                (Some (engine.Frames fs)) dir]> (delete cPath d1)
    /\ fs = (if fails env OpAppendBloom then [] else [bloomBytes (dataHolder.bloomfilter dh)])
    /\ log w' = log w
    /\ dh = {| dataHolder.path := newPath; dataHolder.sto := newPath;
               dataHolder.summary := index.ofEntries es;
               dataHolder.bloomfilter :=
                 populateBloom (BloomFilter.New (index.Count (index.ofEntries es)) fp)
                          (index.ofEntries es) |}.
Proof.
  intros Hn cPath newPath. unfold newDataHolder in Hn. fold cPath newPath in Hn.
  destruct (attempt env OpRenameFile _) as [d1|] eqn:H1; [|discriminate].
  destruct (attempt env OpRenameDir _) as [d2|] eqn:H2; [|discriminate].
  destruct (attempt env OpOpenFile _) as [dsto|] eqn:H3; [|discriminate].
  destruct (LoadIndex env dsto _) as [summary|] eqn:H4; [|discriminate].
  destruct (attempt env OpCreateBloom _) as [d3|] eqn:H5; [|discriminate].
  injection Hn as <- <-.
  unfold attempt in H2, H3, H5.
  destruct (fails env OpRenameDir); [discriminate|].
  destruct (fails env OpOpenFile); [discriminate|].
  destruct (fails env OpCreateBloom); [discriminate|].
  apply RenameDir_Some in H2 as (dir & Hold & Hnew & ->).
  apply OpenFile_Some in H3 as [-> _].
  apply LoadIndex_Ok in H4 as (es & Hidx & ->).
  apply Create_Some in H5 as (dir' & Hdir' & ->).
  rewrite lookup_insert_eq in Hdir'. injection Hdir' as <-.
  unfold engine.Open in Hidx. simpl in Hidx. rewrite lookup_insert_eq in Hidx.
  simpl in Hidx.
  exists d1, dir, es.
  unfold attempt. destruct (fails env OpAppendBloom) eqn:Hw; simpl.
  - exists []. repeat split; try assumption.
    rewrite insert_insert_eq. reflexivity.
  - eexists. repeat split; try assumption.
    unfold engine.Append. rewrite lookup_insert_eq. simpl.
    rewrite !insert_insert_eq. reflexivity.
Qed.

Lemma InsertData_unfold (env : Env) (db : Database) (df : model.DataDefinition) (w : World) :
  InsertData env db df w =
  match Commitlog.Size env (commitlog db) w with
  | Err e => (Some e, cached db df, w)
  | Ok size =>
      if decide (rotates db df size)
      then match rollover env (cached db df) w with
           | (Some e, d, w1) => (Some e, d, w1)
           | (None, d, w1) => appendStep env d df w1
           end
      else appendStep env (cached db df) df w
  end.
Proof.
  unfold InsertData, appendStep, rotates. fold (cached db df).
  change (commitlog (cached db df)) with (commitlog db).
  destruct (Commitlog.Size env (commitlog db) w) as [size|e]; [|reflexivity].
  change (Descriptor (cached db df)) with (Descriptor db).
  destruct (decide _); [|reflexivity].
  destruct (rollover env (cached db df) w) as [[[e|] d] w1]; reflexivity.
Qed.

Lemma rollover_Some (env : Env) (db db' : Database) (w w' : World) (e : error) :
  rollover env db w = (Some e, db', w') ->
  db' = db
  /\ newDataHolder env (Commitlog.sto (commitlog db)) (Path (Descriptor db))
       (BloomFilterFp (Descriptor db)) w = (Err e, w').
Proof.
  unfold rollover. destruct (newDataHolder _ _ _ _ _) as [[ndh|e'] w1].
  - destruct (Commitlog.New _ _). discriminate.
  - intros [= <- <- <-]. auto.
Qed.

Lemma rollover_None (env : Env) (db db' : Database) (w w' : World) :
  rollover env db w = (None, db', w') ->
  exists ndh w1,
    newDataHolder env (Commitlog.sto (commitlog db)) (Path (Descriptor db))
      (BloomFilterFp (Descriptor db)) w = (Ok ndh, w1)
    /\ dhList db' = dhList db ++ [ndh]
    /\ Descriptor db' = Descriptor db /\ cache db' = cache db
    /\ logAtHome db'
    /\ Commitlog.summary (commitlog db') = ∅
    /\ logFrames w' (commitlog db') []
    /\ log w' = log w1
    /\ forall p, p ≠ filepath.Join (Path (Descriptor db)) FolderCommitlog ->
                 disk w' !! p = disk w1 !! p.
Proof.
  unfold rollover. destruct (newDataHolder _ _ _ _ _) as [[ndh|e'] w1] eqn:Hn; [|discriminate].
  unfold Commitlog.New.
  apply newDataHolder_Ok_disk in Hn as Hd. cbv zeta in Hd.
  destruct Hd as (d1 & dir & es & fs & _ & Hold & Hne & _ & Hdisk & _ & _ & _).
  assert (disk w1 !! filepath.Join (Path (Descriptor db)) FolderCommitlog = None) as Hgone.
  { rewrite Hdisk. rewrite lookup_insert_ne, lookup_delete_eq; [reflexivity|].
    intros Heq. rewrite Heq in Hne. congruence. }
  rewrite Hgone. intros [= <- <-]. exists ndh, w1. simpl.
  split; [reflexivity|]. split; [reflexivity|]. split; [reflexivity|].
  split; [reflexivity|]. split; [reflexivity|]. split; [reflexivity|].
  split.
  { eexists _, _. simpl. rewrite lookup_insert_eq. split; [reflexivity|].
    split; reflexivity. }
  split; [reflexivity|].
  intros p Hp. apply lookup_insert_ne. congruence.
Qed.

Lemma logFrames_inj (w : World) (c : Commitlog.t) (fs gs : list ByteStream) :
  logFrames w c fs -> logFrames w c gs -> fs = gs.
Proof.
  intros (d & es & Hd & Hf & _) (d' & es' & Hd' & Hf' & _).
  congruence.
Qed.

Lemma Size_Ok (env : Env) (c : Commitlog.t) (w : World) (n : Z) :
  Commitlog.Size env c w = Ok n ->
  exists fs, n = engine.byteLen fs
             /\ engine.Open (disk w) (Commitlog.sto c) engine.FileCommitlog
                = Some (engine.Frames fs).
Proof.
  unfold Commitlog.Size. destruct (fails env OpSize); [discriminate|].
  destruct (engine.Open _ _ _) as [[fs|]|]; try discriminate.
  intros [= <-]. eauto.
Qed.

Lemma Size_logFrames_eq (env : Env) (c : Commitlog.t) (w : World) (n : Z)
    (fs : list ByteStream) :
  Commitlog.Size env c w = Ok n -> logFrames w c fs -> n = engine.byteLen fs.
Proof.
  intros Hs (d & es & Hd & Hf & _).
  apply Size_Ok in Hs as (gs & -> & Ho).
  unfold engine.Open in Ho. rewrite Hd in Ho. simpl in Ho. congruence.
Qed.

Lemma appendStep_None (env : Env) (db db' : Database) (df : model.DataDefinition)
    (w w' : World) :
  appendStep env db df w = (None, db', w') ->
  exists c, Commitlog.Add env (commitlog db) (model.Key df) (model.Status df)
              (ToByteStream df) w = (None, c, w')
            /\ db' = setCommitlog c db.
Proof.
  unfold appendStep.
  destruct (Commitlog.Add _ _ _ _ _ _) as [[[e|] c] w1]; [discriminate|].
  intros [= <- <-]. eauto.
Qed.

Lemma appendStep_Some (env : Env) (db db' : Database) (df : model.DataDefinition)
    (w w' : World) (e : error) :
  appendStep env db df w = (Some e, db', w') ->
  db' = db /\ w' = w /\ e = IOError (OpAdd (model.Key df)).
Proof.
  unfold appendStep.
  destruct (Commitlog.Add _ _ _ _ _ _) as [[[e'|] c] w1] eqn:Ha; [|discriminate].
  intros [= <- <- <-]. apply Add_Some in Ha as (_ & -> & ->). auto.
Qed.


Lemma newDataHolder_Ok_files (env : Env) (sto : engine.Storage) (dbPath : string)
    (fp : float32) (w w' : World) (dh : dataHolder.t) :
  newDataHolder env sto dbPath fp w = (Ok dh, w') ->
  dataHolder.path dh = filepath.Join dbPath (pretty (now env))
  /\ dataHolder.sto dh = dataHolder.path dh
  /\ disk w' !! filepath.Join dbPath FolderCommitlog = None
  /\ (sto = filepath.Join dbPath FolderCommitlog ->
      is_Some (engine.Open (disk w') (dataHolder.sto dh) engine.FileData))
  /\ is_Some (engine.Open (disk w') (dataHolder.sto dh) engine.FileIndex)
  /\ is_Some (engine.Open (disk w') (dataHolder.sto dh) engine.FileBloomFilter).
Proof.
  intros Hn. apply newDataHolder_Ok_disk in Hn. cbv zeta in Hn.
  destruct Hn as (d1 & dir & es & fs & Hren & Hold & Hnew & Hidx & Hdisk & _ & _ & ->).
  simpl. rewrite Hdisk.
  assert (filepath.Join dbPath (pretty (now env)) ≠ filepath.Join dbPath FolderCommitlog)
    as Hne by congruence.
  split; [reflexivity|]. split; [reflexivity|].
  split; [rewrite lookup_insert_ne, lookup_delete_eq; [reflexivity|exact Hne]|].
  unfold engine.Open. rewrite lookup_insert_eq. simpl.
  split; [|split; [rewrite Hidx; eauto | eauto]].
  intros ->. unfold attempt in Hren.
  destruct (fails env OpRenameFile); [discriminate|].
  apply Rename_Some in Hren as (d & f & Hd & Hf & ->).
  rewrite lookup_insert_eq in Hold. injection Hold as <-.
  simpl. eauto.
Qed.

Lemma newDataHolder_Err (env : Env) (sto : engine.Storage) (dbPath : string)
    (fp : float32) (w w' : World) (e : error) :
  newDataHolder env sto dbPath fp w = (Err e, w') ->
  log w' = log w /\ (e = IOError OpRenameFile -> w' = w).
Proof.
  unfold newDataHolder. intros Hn.
  destruct (attempt env OpRenameFile _) as [d1|]; [|injection Hn as <- <-; auto].
  destruct (attempt env OpRenameDir _) as [d2|];
    [|injection Hn as <- <-; split; [reflexivity|discriminate]].
  destruct (attempt env OpOpenFile _) as [dsto|];
    [|injection Hn as <- <-; split; [reflexivity|discriminate]].
  destruct (LoadIndex env dsto _) as [summary|e'] eqn:Hl.
  - destruct (attempt env OpCreateBloom _) as [d3|];
      [discriminate|injection Hn as <- <-; split; [reflexivity|discriminate]].
  - injection Hn as <- <-. split; [reflexivity|].
    unfold LoadIndex in Hl. destruct (fails env OpLoadIndex); [injection Hl as <-; discriminate|].
    destruct (engine.Open _ _ _) as [[|]|]; try discriminate; injection Hl as <-; discriminate.
Qed.

(** A rotation that failed after the rename of the commit log file leaves
    no commit log file where the commit log was. *)
Lemma newDataHolder_Err_renamed (env : Env) (dbPath : string)
    (fp : float32) (w w' : World) (e : error) :
  newDataHolder env (filepath.Join dbPath FolderCommitlog) dbPath fp w = (Err e, w') ->
  e <> IOError OpRenameFile ->
  engine.Open (disk w') (filepath.Join dbPath FolderCommitlog) engine.FileCommitlog = None.
Proof.
  unfold newDataHolder. intros Hn Hne.
  destruct (attempt env OpRenameFile _) as [d1|] eqn:Hr;
    [|injection Hn as <- <-; contradiction].
  unfold attempt in Hr. destruct (fails env OpRenameFile); [discriminate|].
  apply Rename_Some in Hr as (d & f & Hd & Hf & ->).
  assert (forall d2, engine.RenameDir
            (<[filepath.Join dbPath FolderCommitlog :=
                 engine.setFile engine.FileData (Some f)
                   (engine.setFile engine.FileCommitlog None d)]> (disk w))
            (filepath.Join dbPath FolderCommitlog)
            (filepath.Join dbPath (pretty (now env))) = Some d2 ->
          engine.Open d2 (filepath.Join dbPath FolderCommitlog) engine.FileCommitlog = None)
    as Hgone.
  { intros d2 Hd2. apply RenameDir_Some in Hd2 as (d' & Hold & Hnew & ->).
    unfold engine.Open. rewrite lookup_insert_ne.
    - rewrite lookup_delete_eq. reflexivity.
    - intros Heq. rewrite Heq in Hnew. congruence. }
  destruct (attempt env OpRenameDir _) as [d2|] eqn:Hrd.
  - unfold attempt in Hrd. destruct (fails env OpRenameDir); [discriminate|].
    apply Hgone in Hrd.
    destruct (attempt env OpOpenFile _) as [dsto|];
      [|injection Hn as <- <-; exact Hrd].
    destruct (LoadIndex env dsto _) as [summary|e'];
      [|injection Hn as <- <-; exact Hrd].
    destruct (attempt env OpCreateBloom _) as [d3|];
      [discriminate|injection Hn as <- <-; exact Hrd].
  - injection Hn as <- <-. simpl.
    unfold engine.Open. rewrite lookup_insert_eq. reflexivity.
Qed.

Lemma newDataHolder_fault (env : Env) (sto : engine.Storage) (dbPath : string)
    (fp : float32) (w : World) :
  fails env OpRenameFile || fails env OpRenameDir || fails env OpOpenFile
  || fails env OpLoadIndex || fails env OpCreateBloom = true ->
  exists e w', newDataHolder env sto dbPath fp w = (Err e, w').
Proof.
  intros Hf. unfold newDataHolder, attempt.
  destruct (fails env OpRenameFile); [eauto|].
  destruct (engine.Rename _ _ _ _) as [d1|]; [|eauto].
  destruct (fails env OpRenameDir); [eauto|].
  destruct (engine.RenameDir _ _ _) as [d2|]; [|eauto].
  destruct (fails env OpOpenFile); [eauto|].
  destruct (engine.OpenFile _ _) as [dsto|]; [|eauto].
  unfold LoadIndex.
  destruct (fails env OpLoadIndex); [eauto|].
  destruct (engine.Open _ _ _) as [[|es]|]; [eauto| |eauto].
  destruct (fails env OpCreateBloom); [eauto|].
  discriminate.
Qed.

Lemma find_Put (c : cache.Cache) (k : N) (v : ByteStream) :
  (0 < cache.capacity c)%nat -> cache.find k (cache.items (cache.Put c k v)) = Some v.
Proof.
  intros Hc. unfold cache.Put. simpl.
  destruct (cache.capacity c) as [|n]; [lia|].
  simpl. unfold cache.find. simpl. rewrite decide_True by reflexivity. reflexivity.
Qed.


End write_path_facts.

(** * Lemmas on bloom filters and summaries *)
Section bloom_facts.
Context `{Externals}.

Lemma Contains_Add_same (bf : util.BloomFilter) (key : string) :
  BloomFilter.Contains (BloomFilter.Add bf key) key = true.
Proof.
  unfold BloomFilter.Contains, BloomFilter.Add, BloomFilter.buckets. simpl.
  apply forallb_forall. intros i Hi.
  apply bool_decide_eq_true. apply elem_of_union_r, elem_of_list_to_set.
  apply list_elem_of_In. exact Hi.
Qed.

Lemma Contains_Add_mono (bf : util.BloomFilter) (key key' : string) :
  BloomFilter.Contains bf key = true ->
  BloomFilter.Contains (BloomFilter.Add bf key') key = true.
Proof.
  unfold BloomFilter.Contains, BloomFilter.Add, BloomFilter.buckets. simpl.
  rewrite !forallb_forall. intros Hc i Hi.
  apply bool_decide_eq_true. apply elem_of_union_l.
  specialize (Hc i Hi). apply bool_decide_eq_true in Hc. exact Hc.
Qed.

(** The loop that adds the keys of a list of entries keeps what the filter
    contained and makes it contain the key of every entry of the list. *)
Lemma Contains_foldl_Add (l : list index.Entry) (bf : util.BloomFilter) (key : string) :
  (BloomFilter.Contains bf key = true
   \/ exists v, v ∈ l /\ key = Itoa (index.Key v)) ->
  BloomFilter.Contains
    (foldl (fun bf v => BloomFilter.Add bf (Itoa (index.Key v))) bf l) key = true.
Proof.
  revert bf. induction l as [|x l IH]; intros bf [Hc | (v & Hv & Hk)]; simpl.
  - exact Hc.
  - inversion Hv.
  - apply IH. left. apply Contains_Add_mono. exact Hc.
  - apply IH. apply elem_of_cons in Hv as [-> | Hv].
    + left. subst key. apply Contains_Add_same.
    + right. eauto.
Qed.

Lemma elem_of_values (s : gmap N index.Entry) (v : index.Entry) :
  v ∈ index.values s <-> exists k, s !! k = Some v.
Proof.
  unfold index.values. rewrite list_elem_of_fmap. split.
  - intros ([k v'] & -> & Hin). exists k. apply elem_of_map_to_list in Hin. exact Hin.
  - intros (k & Hk). exists (k, v). split; [reflexivity|].
    apply elem_of_map_to_list. exact Hk.
Qed.

Lemma keyed_Add (e : index.Entry) (s : gmap N index.Entry) :
  keyed s -> keyed (index.Add e s).
Proof.
  intros Hs k v. unfold index.Add. rewrite lookup_insert.
  destruct (decide (index.Key e = k)) as [<-|Hne].
  - intros [= <-]. reflexivity.
  - apply Hs.
Qed.

Lemma keyed_foldl (es : list index.Entry) (s : gmap N index.Entry) :
  keyed s -> keyed (foldl (fun s e => index.Add e s) s es).
Proof.
  revert s. induction es as [|e es IH]; intros s Hs; simpl; [exact Hs|].
  apply IH, keyed_Add, Hs.
Qed.

Lemma keyed_ofEntries (es : list index.Entry) : keyed (index.ofEntries es).
Proof. apply keyed_foldl. intros k v Hk. rewrite lookup_empty in Hk. discriminate. Qed.

Lemma populateBloom_Contains (bf : util.BloomFilter) (s : gmap N index.Entry) (k : N) :
  keyed s -> is_Some (index.LookUp s k) ->
  BloomFilter.Contains (populateBloom bf s) (Itoa k) = true.
Proof.
  intros Hs [v Hv]. unfold populateBloom. apply Contains_foldl_Add. right.
  exists v. split; [apply elem_of_values; eauto|].
  rewrite (Hs k v Hv). reflexivity.
Qed.

Lemma Open_dir (disk : gmap string engine.Dir) (sto : engine.Storage)
    (t : engine.FileType) (d : engine.Dir) :
  disk !! sto = Some d -> engine.Open disk sto t = engine.file d t.
Proof. intros Hd. unfold engine.Open. rewrite Hd. reflexivity. Qed.

Lemma OpenFile_dir (disk : gmap string engine.Dir) (path : string) (d : engine.Dir) :
  disk !! path = Some d -> engine.OpenFile disk path = Some path.
Proof. intros Hd. unfold engine.OpenFile. rewrite Hd. reflexivity. Qed.

Lemma openDataHolder_intact (env : Env) (path : string) (w : World) (d : engine.Dir)
    (es : list index.Entry) (b : ByteStream) (rest : list ByteStream) :
  disk w !! path = Some d ->
  engine.indexFile d = Some (engine.Entries es) ->
  engine.bloomFile d = Some (engine.Frames (b :: rest)) ->
  openDataHolder env path w =
  if fails env OpOpenFile then Err (IOError OpOpenFile)
  else if fails env OpLoadIndex then Err (IOError OpLoadIndex)
  else if fails env OpOpenBloom then Err (IOError OpOpenBloom)
  else Ok {| dataHolder.path := path; dataHolder.sto := path;
             dataHolder.summary := index.ofEntries es;
             dataHolder.bloomfilter := bloomOfBytes b |}.
Proof.
  intros Hd Hi Hb.
  unfold openDataHolder, attempt, LoadIndex.
  rewrite (OpenFile_dir _ _ _ Hd).
  destruct (fails env OpOpenFile); [reflexivity|].
  destruct (fails env OpLoadIndex); [reflexivity|].
  rewrite !(Open_dir _ _ _ _ Hd). simpl. rewrite Hi, Hb.
  destruct (fails env OpOpenBloom); reflexivity.
Qed.

End bloom_facts.

(** * Lemmas on compaction *)
Section compaction_facts.
Context `{Externals}.






Lemma dhContainsAnyTombstone_true (dh : dataHolder.t) (T : list tombstoneMark.t) :
  dhContainsAnyTombstone dh T = true <-> affected T dh.
Proof.
  unfold affected, index.GetTable. induction T as [|tb T IH]; simpl.
  - split; [discriminate|]. intros (tb & Hin & _). inversion Hin.
  - unfold index.GetTable.
    destruct (dataHolder.summary dh !! tombstoneMark.Key tb) as [e|] eqn:He.
    + split; [|reflexivity]. intros _. exists tb. split; [left|]. rewrite He. eauto.
    + rewrite IH. split.
      * intros (tb' & Hin & Hk). exists tb'. split; [right; exact Hin|exact Hk].
      * intros (tb' & Hin & Hk). apply elem_of_cons in Hin as [->|Hin].
        -- rewrite He in Hk. destruct Hk as [? Hk]. discriminate.
        -- eauto.
Qed.
Lemma sameShape_refl (db : Database) : sameShape db db.
Proof. repeat split. Qed.

Lemma sameShape_trans (a b c : Database) : sameShape a b -> sameShape b c -> sameShape a c.
Proof.
  intros (A1 & A2 & A3 & A4 & A5) (B1 & B2 & B3 & B4 & B5).
  repeat split; congruence.
Qed.

(** What an append does in every case, whether it succeeds or not. *)
Lemma Add_total (env : Env) (c c' : Commitlog.t) (key : string) (st : model.status)
    (b : ByteStream) (w w' : World) (err : option error) :
  Commitlog.Add env c key st b w = (err, c', w') ->
  Commitlog.sto c' = Commitlog.sto c
  /\ Commitlog.filepath c' = Commitlog.filepath c
  /\ log w' = log w
  /\ noRevival w w'
  /\ (forall p, p ≠ Commitlog.sto c -> disk w' !! p = disk w !! p)
  /\ (forall fs, logFile w c = Some (engine.Frames fs) ->
                 exists extra, logFile w' c' = Some (engine.Frames (fs ++ extra)))
  /\ (forall h, h ≠ Hash32 key -> Commitlog.summary c' !! h = Commitlog.summary c !! h).
Proof.
  intros Hadd. destruct err as [e|].
  - apply Add_Some in Hadd as (-> & -> & _).
    repeat split; auto.
    + intros p Hp. exact Hp.
    + intros fs Hfs. exists []. rewrite app_nil_r. exact Hfs.
  - unfold Commitlog.Add in Hadd.
    destruct (fails env (OpAdd key)); [discriminate|].
    destruct (disk w !! Commitlog.sto c) as [d|] eqn:Hd; [|discriminate].
    destruct (engine.commitlogFile d) as [[fs|]|] eqn:Hf; try discriminate.
    destruct (engine.indexFile d) as [[|es]|] eqn:Hi; try discriminate.
    injection Hadd as <- <-. unfold setDisk. simpl. repeat split.
    + intros p Hp. simpl. destruct (decide (p = Commitlog.sto c)) as [->|Hne]; [congruence|].
      rewrite lookup_insert_ne by congruence. exact Hp.
    + intros p Hp. apply lookup_insert_ne. congruence.
    + intros fs' Hfs'. unfold logFile in *. rewrite (Open_dir _ _ _ _ Hd) in Hfs'.
      simpl in Hfs'. rewrite Hf in Hfs'. injection Hfs' as <-.
      exists [b]. unfold engine.Open. simpl. rewrite lookup_insert_eq. reflexivity.
    + intros h Hh. unfold index.Add. simpl. apply lookup_insert_ne. congruence.
Qed.

Lemma frameAt_same (w w' : World) (dh : dataHolder.t) (v : index.Entry) :
  disk w' !! dataHolder.sto dh = disk w !! dataHolder.sto dh ->
  frameAt w' dh v = frameAt w dh v.
Proof. intros Hd. unfold frameAt, engine.Open. rewrite Hd. reflexivity. Qed.

Lemma frameAt_gone (w : World) (dh : dataHolder.t) (v : index.Entry) :
  disk w !! dataHolder.sto dh = None -> frameAt w dh v = None.
Proof. intros Hd. unfold frameAt, engine.Open. rewrite Hd. reflexivity. Qed.

Lemma last_slog (l : LogLine) (w : World) : last (log (slog l w)) = Some l.
Proof. simpl. apply last_snoc. Qed.

Lemma reinsert_any (env : Env) (dh : dataHolder.t) (T : list tombstoneMark.t) (h : N)
    (table : list index.Entry) :
  forall (db db' : Database) (w w' : World) (fin : bool),
    reinsert env dh T table db w = (fin, db', w') ->
    sameShape db db'
    /\ noRevival w w'
    /\ (forall p, p ≠ Commitlog.sto (commitlog db) -> disk w' !! p = disk w !! p)
    /\ (fin = false -> last (log w') = Some (Errorf ErrFileCorrupted (dataHolder.path dh)))
    /\ (forall fs, logFile w (commitlog db) = Some (engine.Frames fs) ->
                   exists extra, logFile w' (commitlog db') = Some (engine.Frames (fs ++ extra)))
    /\ (dataHolder.sto dh ≠ Commitlog.sto (commitlog db) ->
        (forall v b, v ∈ table -> containsKey (index.Key v) T = false ->
                     frameAt w dh v = Some b ->
                     Hash32 (model.Key (FromByteStream b)) ≠ h) ->
        Commitlog.summary (commitlog db') !! h = Commitlog.summary (commitlog db) !! h).
Proof.
  induction table as [|v rest IH]; intros db db' w w' fin Hrun; simpl in Hrun.
  - injection Hrun as <- <- <-. repeat split; auto.
    + intros p Hp. exact Hp.
    + discriminate.
    + intros fs Hfs. exists []. rewrite app_nil_r. exact Hfs.
  - destruct (containsKey (index.Key v) T) eqn:Hck.
    { apply IH in Hrun as (S1 & S2 & S3 & S4 & S5 & S6).
      repeat split; try apply S1; auto.
      intros Hsto Hkeys. apply S6; [exact Hsto|].
      intros v' b' Hv'. apply Hkeys. right. exact Hv'. }
    rewrite dataHolder_Get_frameAt in Hrun.
    destruct (frameAt w dh v) as [b|] eqn:Hframe; simpl in Hrun.
    + destruct (Commitlog.Add env (commitlog db) _ _ b w) as [[err c1] w1] eqn:Hadd.
      apply Add_total in Hadd as (A1 & A2 & A3 & A4 & A5 & A6 & A7).
      apply IH in Hrun as (S1 & S2 & S3 & S4 & S5 & S6).
      unfold sameShape in *. simpl in *.
      destruct S1 as (E1 & E2 & E3 & E4 & E5).
      split; [repeat split; congruence|].
      split; [intros p Hp; apply S2, A4, Hp|].
      split; [intros p Hp; rewrite S3 by congruence; apply A5, Hp|].
      split; [exact S4|].
      split.
      * intros fs Hfs. destruct (A6 fs Hfs) as (x1 & Hx1).
        destruct (S5 (fs ++ x1)) as (x2 & Hx2).
        { unfold logFile in *. simpl. exact Hx1. }
        exists (x1 ++ x2). rewrite app_assoc. exact Hx2.
      * intros Hsto Hkeys. rewrite S6.
        -- apply A7. apply not_eq_sym. eapply Hkeys; [left|exact Hck|exact Hframe].
        -- congruence.
        -- intros v' b' Hv' Hck' Hf'. eapply Hkeys; [right; exact Hv'|exact Hck'|].
           rewrite <- Hf'. symmetry. apply frameAt_same. simpl. apply A5. exact Hsto.
    + injection Hrun as <- <- <-. repeat split; auto.
      * intros p Hp. exact Hp.
      * intros _. apply last_slog.
      * intros fs Hfs. exists []. rewrite app_nil_r. exact Hfs.
Qed.

Lemma compactHolders_any (env : Env) (T : list tombstoneMark.t) (h : N) (w0 : World)
    (dhs : list dataHolder.t) :
  forall (db db' : Database) (w w' : World) (fin : bool),
    compactHolders env T dhs db w = (fin, db', w') ->
    sameShape db db'
    /\ noRevival w w'
    /\ shrinks (Commitlog.sto (commitlog db)) w w'
    /\ (fin = true -> forall dh, dh ∈ dhs -> dhContainsAnyTombstone dh T = true ->
                      disk w' !! dataHolder.path dh = None)
    /\ (fin = false ->
        exists dh, dh ∈ dhs /\ dhContainsAnyTombstone dh T = true
                   /\ last (log w') = Some (Errorf ErrFileCorrupted (dataHolder.path dh))
                   /\ (NoDup (dataHolder.path <$> dhs) ->
                       dataHolder.path dh ≠ Commitlog.sto (commitlog db) ->
                       disk w' !! dataHolder.path dh = disk w !! dataHolder.path dh))
    /\ ((forall dh, dh ∈ dhs -> dataHolder.path dh ≠ Commitlog.sto (commitlog db)) ->
        forall fs, logFile w (commitlog db) = Some (engine.Frames fs) ->
                   exists extra, logFile w' (commitlog db') = Some (engine.Frames (fs ++ extra)))
    /\ ((forall dh, dh ∈ dhs -> dataHolder.sto dh ≠ Commitlog.sto (commitlog db)
                                /\ consistent w0 dh) ->
        shrinks (Commitlog.sto (commitlog db)) w0 w ->
        containsKey h T = true ->
        Commitlog.summary (commitlog db') !! h = Commitlog.summary (commitlog db) !! h).
Proof.
  induction dhs as [|dh rest IH]; intros db db' w w' fin Hrun; simpl in Hrun.
  - injection Hrun as <- <- <-. split; [apply sameShape_refl|].
    split; [intros p Hp; exact Hp|]. split; [intros p Hp; left; reflexivity|].
    split; [intros _ dh Hin; inversion Hin|]. split; [discriminate|].
    split; [intros _ fs Hfs; exists []; rewrite app_nil_r; exact Hfs|]. reflexivity.
  - destruct (dhContainsAnyTombstone dh T) eqn:Haff.
    2:{ apply IH in Hrun as (S1 & S2 & S3 & S4 & S5 & S6 & S7).
        split; [exact S1|]. split; [exact S2|]. split; [exact S3|].
        split.
        { intros Hfin d Hd Hda. apply elem_of_cons in Hd as [->|Hd]; [congruence|].
          apply S4; assumption. }
        split.
        { intros Hfin. destruct (S5 Hfin) as (d & Hd & Hda & Hlast & Hkeep).
          exists d. split; [right; exact Hd|]. split; [exact Hda|]. split; [exact Hlast|].
          intros Hnd. apply Hkeep. rewrite fmap_cons in Hnd.
          apply NoDup_cons in Hnd as [_ Hnd]. exact Hnd. }
        split.
        { intros Hp. apply S6. intros d Hd. apply Hp. right. exact Hd. }
        intros Hc. apply S7. intros d Hd. apply Hc. right. exact Hd. }
    destruct (reinsert env dh T _ db w) as [[fin1 db1] w1] eqn:Hre.
    apply (reinsert_any env dh T h) in Hre as (R1 & R2 & R3 & R4 & R5 & R6).
    destruct fin1.
    + apply IH in Hrun as (S1 & S2 & S3 & S4 & S5 & S6 & S7).
      pose proof R1 as (_ & _ & _ & Rsto & _). rewrite Rsto in *.
      unfold engine.DeleteDir in *. simpl in *.
      split; [eapply sameShape_trans; eassumption|].
      assert (noRevival w w') as Hnr.
      { intros p Hp. apply S2. simpl.
        destruct (decide (dataHolder.path dh = p)) as [->|Hne].
        - apply lookup_delete_eq.
        - rewrite lookup_delete_ne by exact Hne. apply R2, Hp. }
      split; [exact Hnr|].
      assert (shrinks (Commitlog.sto (commitlog db)) w w') as Hsh.
      { intros p Hp. destruct (S3 p Hp) as [Hs|Hs]; [|right; exact Hs].
        rewrite Hs. simpl.
        destruct (decide (dataHolder.path dh = p)) as [->|Hne].
        - right. apply lookup_delete_eq.
        - left. rewrite lookup_delete_ne by exact Hne. apply R3, Hp. }
      split; [exact Hsh|].
      split.
      { intros Hfin d Hd Hda. apply elem_of_cons in Hd as [->|Hd].
        - apply S2. simpl. apply lookup_delete_eq.
        - apply S4; assumption. }
      split.
      { intros Hfin. destruct (S5 Hfin) as (d & Hd & Hda & Hlast & Hkeep).
        exists d. split; [right; exact Hd|]. split; [exact Hda|]. split; [exact Hlast|].
        intros Hnd Hne.
        change (NoDup (dataHolder.path dh :: (dataHolder.path <$> rest))) in Hnd.
        apply NoDup_cons in Hnd as [Hnin Hnd].
        rewrite (Hkeep Hnd Hne). simpl.
        rewrite lookup_delete_ne.
        - apply R3, Hne.
        - intros Heq. apply Hnin. rewrite Heq. apply list_elem_of_fmap. eauto. }
      split.
      { intros Hp fs Hfs. destruct (R5 fs Hfs) as (x1 & Hx1).
        destruct (S6 (fun d Hd => Hp d (list_elem_of_further _ _ _ Hd)) (fs ++ x1)) as (x2 & Hx2).
        - unfold logFile, engine.Open in *. simpl. rewrite ?Rsto. rewrite ?Rsto in Hx1.
          rewrite lookup_delete_ne; [exact Hx1|]. apply Hp. left.
        - exists (x1 ++ x2). rewrite app_assoc. exact Hx2. }
      intros Hc Hsh0 Hh.
      destruct (Hc dh (list_elem_of_here _ _)) as [Hsto Hcons].
      rewrite S7.
      * apply R6; [exact Hsto|].
        intros v b Hv Hck Hf.
        assert (frameAt w0 dh v = Some b) as Hf0.
        { destruct (Hsh0 (dataHolder.sto dh) Hsto) as [Hs|Hs].
          - rewrite <- Hf. symmetry. apply frameAt_same. exact Hs.
          - rewrite (frameAt_gone _ _ _ Hs) in Hf. discriminate. }
        rewrite (Hcons v b Hv Hf0). intros Heq. congruence.
      * intros d Hd. apply Hc. right. exact Hd.
      * intros p Hp. simpl.
        destruct (decide (dataHolder.path dh = p)) as [->|Hne].
        -- right. apply lookup_delete_eq.
        -- rewrite lookup_delete_ne by exact Hne. rewrite R3 by exact Hp. apply Hsh0, Hp.
      * exact Hh.
    + injection Hrun as <- <- <-.
      split; [exact R1|]. split; [exact R2|].
      split; [intros p Hp; left; apply R3, Hp|].
      split; [discriminate|].
      split.
      { intros _. exists dh. split; [left|]. split; [exact Haff|].
        split; [apply R4; reflexivity|]. intros _ Hne. apply R3, Hne. }
      split; [intros _; exact R5|].
      intros Hc Hsh0 Hh.
      destruct (Hc dh (list_elem_of_here _ _)) as [Hsto Hcons].
      apply R6; [exact Hsto|].
      intros v b Hv Hck Hf.
      assert (frameAt w0 dh v = Some b) as Hf0.
      { destruct (Hsh0 (dataHolder.sto dh) Hsto) as [Hs|Hs].
        - rewrite <- Hf. symmetry. apply frameAt_same. exact Hs.
        - rewrite (frameAt_gone _ _ _ Hs) in Hf. discriminate. }
      rewrite (Hcons v b Hv Hf0). intros Heq. congruence.
Qed.















Lemma find_Put_cases (c : cache.Cache) (k : N) (v : ByteStream) :
  cache.find k (cache.items (cache.Put c k v)) = Some v
  \/ cache.find k (cache.items (cache.Put c k v)) = None.
Proof.
  destruct (cache.capacity c) as [|n] eqn:Hcap.
  - right. unfold cache.Put. rewrite Hcap. reflexivity.
  - left. apply find_Put. lia.
Qed.






End compaction_facts.

(** * Lemmas on inserts and lookups taken together *)
Section path_facts.
Context `{Externals}.

Lemma find_cons_same (k : N) (v : ByteStream) (l : list (N * ByteStream)) :
  cache.find k ((k, v) :: l) = Some v.
Proof. unfold cache.find. simpl. rewrite decide_True by reflexivity. reflexivity. Qed.

(** What a lookup returns besides its answer. *)
Lemma GetDataByKey_state (db : Database) (key : string) (w : World) :
  let r := GetDataByKey db key w in
  disk r.2 = disk w
  /\ Descriptor r.1.2 = Descriptor db
  /\ commitlog r.1.2 = commitlog db
  /\ dhList r.1.2 = dhList db
  /\ cache.capacity (cache r.1.2) = cache.capacity (cache db)
  /\ (log r.2 = log w
      \/ r.1.1 = (None, false)
         /\ exists dh, dh ∈ dhList db
                       /\ log r.2 = log w ++ [Errorf ErrFileCorrupted (dataHolder.path dh)]).
Proof.
  unfold GetDataByKey, GetDataByKey_body, cache.Get. simpl.
  destruct (cache.find _ _) as [c|] eqn:Hc; simpl.
  { repeat split; auto. }
  destruct (Commitlog.Get _ _ _) as [bs|] eqn:Hl; simpl.
  { repeat split; auto. }
  rewrite setCache_same.
  rewrite searchDataFiles_scan by reflexivity. rewrite firstn_all.
  destruct (firstAdmitting _ _) as [[dh e]|] eqn:Hf; simpl.
  - destruct (frameAt w dh e); simpl.
    + repeat split; auto.
    + repeat split; auto. right. split; [reflexivity|]. exists dh. split; [|reflexivity].
      clear -Hf.
      assert (dh ∈ reverse (dhList db)) as Hin.
      { revert Hf. generalize (reverse (dhList db)). intros l.
        induction l as [|d l IH]; simpl; [discriminate|].
        destruct (admits _ d); [intros [= -> _]; left|intros Hf; right; auto]. }
      rewrite elem_of_reverse in Hin. exact Hin.
  - repeat split; auto.
Qed.

(** The stores in the state that a lookup leaves give the answer again. *)
Lemma GetDataByKey_again (db : Database) (key : string) (w : World) :
  lookupInOrder (GetDataByKey db key w).1.2 key (GetDataByKey db key w).2
  = lookupInOrder db key w.
Proof.
  unfold GetDataByKey, GetDataByKey_body, cache.Get.
  destruct (cache.find _ _) as [c|] eqn:Hc; simpl.
  { unfold lookupInOrder. simpl. rewrite find_cons_same, Hc. reflexivity. }
  destruct (Commitlog.Get _ _ _) as [bs|] eqn:Hl; simpl.
  { unfold lookupInOrder. simpl.
    destruct (find_Put_cases (cache (setCache (cache db) db)) (Hash32 key) bs) as [Hp|Hp];
      simpl in Hp; rewrite Hp, Hc; simpl; rewrite Hl; reflexivity. }
  rewrite setCache_same.
  rewrite searchDataFiles_scan by reflexivity. rewrite firstn_all.
  destruct (firstAdmitting _ _) as [[dh e]|] eqn:Hf; simpl; [|reflexivity].
  destruct (frameAt w dh e); reflexivity.
Qed.

Lemma InsertData_None_cases (env : Env) (db db' : Database) (df : model.DataDefinition)
    (w w' : World) :
  InsertData env db df w = (None, db', w') ->
  exists size,
    Commitlog.Size env (commitlog db) w = Ok size
    /\ ((~ rotates db df size /\ appendStep env (cached db df) df w = (None, db', w'))
        \/ (rotates db df size
            /\ exists d w1, rollover env (cached db df) w = (None, d, w1)
                            /\ appendStep env d df w1 = (None, db', w'))).
Proof.
  rewrite InsertData_unfold. intros Hins.
  destruct (Commitlog.Size env (commitlog db) w) as [size|e]; [|discriminate].
  exists size. split; [reflexivity|].
  destruct (decide (rotates db df size)) as [Hrot|Hrot]; [right|left; auto].
  split; [exact Hrot|].
  destruct (rollover env (cached db df) w) as [[[e|] d] w1]; [discriminate|].
  eauto.
Qed.

Lemma ofEntries_snoc (es : list index.Entry) (e : index.Entry) :
  index.ofEntries (es ++ [e]) = index.Add e (index.ofEntries es).
Proof. unfold index.ofEntries. rewrite foldl_app. reflexivity. Qed.

Lemma Add_inSync (env : Env) (c c' : Commitlog.t) (key : string) (st : model.status)
    (bs : ByteStream) (w w' : World) (err : option error) :
  Commitlog.Add env c key st bs w = (err, c', w') ->
  logInSync w c -> logInSync w' c'.
Proof.
  unfold Commitlog.Add. intros Hadd (d & fs & es & Hd & Hf & Hi & Hs).
  destruct (fails env (OpAdd key)).
  { injection Hadd as _ <- <-. exists d, fs, es. auto. }
  rewrite Hd, Hf, Hi in Hadd. injection Hadd as _ <- <-. simpl.
  eexists _, (fs ++ [bs]), (es ++ [_]). simpl.
  split; [apply lookup_insert_eq|]. split; [reflexivity|]. split; [reflexivity|].
  rewrite ofEntries_snoc, Hs. reflexivity.
Qed.

Lemma New_inSync (dbPath : string) (w : World) :
  disk w !! filepath.Join dbPath FolderCommitlog = None ->
  logInSync (Commitlog.New dbPath w).2 (Commitlog.New dbPath w).1.
Proof.
  intros Hnone. unfold Commitlog.New. simpl. rewrite Hnone. simpl.
  eexists _, [], []. split; [apply lookup_insert_eq|]. repeat split; reflexivity.
Qed.


Lemma find_None (k : N) (l : list (N * ByteStream)) :
  cache.find k l = None <-> Forall (fun kv => kv.1 ≠ k) l.
Proof.
  unfold cache.find. rewrite fmap_None. apply list_find_None.
Qed.

Lemma find_Put_other (c : cache.Cache) (k k' : N) (v : ByteStream) :
  k ≠ k' -> cache.find k (cache.items c) = None ->
  cache.find k (cache.items (cache.Put c k' v)) = None.
Proof.
  intros Hne Hnone. apply find_None. apply find_None in Hnone. simpl.
  apply Forall_take. constructor; [simpl; congruence|].
  unfold cache.others. apply Forall_forall. intros kv Hin.
  apply list_elem_of_filter in Hin as [_ Hin].
  rewrite Forall_forall in Hnone. auto.
Qed.

(** What a commit log hit means on disk. *)
Lemma Commitlog_Get_Some (c : Commitlog.t) (key : string) (w : World) (bs : ByteStream) :
  Commitlog.Get c key w = Some bs ->
  exists e f, Commitlog.summary c !! Hash32 key = Some e
              /\ engine.Open (disk w) (Commitlog.sto c) engine.FileCommitlog = Some f
              /\ engine.Read f (index.Offset e) = Some bs.
Proof.
  unfold Commitlog.Get, index.LookUp. intros Hg.
  destruct (Commitlog.summary c !! Hash32 key) as [e|]; [|discriminate].
  destruct (engine.Open _ _ _) as [f|]; [|discriminate]. eauto.
Qed.

(** The holder that a rotation seals, in terms of the commit log it sealed. *)
Lemma newDataHolder_seals (env : Env) (dbPath : string) (fp : float32) (w w' : World)
    (dh : dataHolder.t) (d : engine.Dir) (fs : list ByteStream) (es : list index.Entry) :
  newDataHolder env (filepath.Join dbPath FolderCommitlog) dbPath fp w = (Ok dh, w') ->
  disk w !! filepath.Join dbPath FolderCommitlog = Some d ->
  engine.commitlogFile d = Some (engine.Frames fs) ->
  engine.indexFile d = Some (engine.Entries es) ->
  let newPath := filepath.Join dbPath (pretty (now env)) in
  newPath ≠ filepath.Join dbPath FolderCommitlog
  /\ disk w !! newPath = None
  /\ dh = {| dataHolder.path := newPath; dataHolder.sto := newPath;
             dataHolder.summary := index.ofEntries es;
             dataHolder.bloomfilter :=
               populateBloom (BloomFilter.New (index.Count (index.ofEntries es)) fp)
                 (index.ofEntries es) |}
  /\ disk w' !! filepath.Join dbPath FolderCommitlog = None
  /\ (exists dir, disk w' !! newPath = Some dir
                  /\ engine.commitlogFile dir = None
                  /\ engine.dataFile dir = Some (engine.Frames fs)
                  /\ engine.indexFile dir = Some (engine.Entries es)
                  /\ engine.bloomFile dir
                     = Some (engine.Frames (if fails env OpAppendBloom then []
                                            else [bloomBytes (dataHolder.bloomfilter dh)])))
  /\ log w' = log w
  /\ forall p, p ≠ filepath.Join dbPath FolderCommitlog -> p ≠ newPath ->
               disk w' !! p = disk w !! p.
Proof.
  intros Hn Hd Hf Hi newPath.
  apply newDataHolder_Ok_disk in Hn
    as (d1 & dir & es' & bfs & Hren & Hdir & Hnew & Hes & Hdisk & Hbfs & Hlog & Hdh).
  unfold attempt in Hren. destruct (fails env OpRenameFile); [discriminate|].
  apply Rename_Some in Hren as (d0 & f & Hd0 & Hf0 & ->).
  rewrite Hd in Hd0. injection Hd0 as <-.
  simpl in Hf0. rewrite Hf in Hf0. injection Hf0 as <-.
  rewrite lookup_insert_eq in Hdir. injection Hdir as <-.
  simpl in Hes. rewrite Hi in Hes. injection Hes as <-.
  assert (newPath ≠ filepath.Join dbPath FolderCommitlog) as Hne.
  { intros Heq. fold newPath in Hnew. rewrite Heq, lookup_insert_eq in Hnew. discriminate. }
  fold newPath in Hnew, Hdisk, Hdh.
  rewrite lookup_insert_ne in Hnew by congruence.
  split; [exact Hne|]. split; [exact Hnew|]. split; [exact Hdh|].
  rewrite Hdisk. split.
  { rewrite lookup_insert_ne by exact Hne. apply lookup_delete_eq. }
  split.
  { eexists. split; [apply lookup_insert_eq|]. simpl. rewrite Hbfs. auto. }
  split; [exact Hlog|].
  intros p Hp1 Hp2.
  rewrite lookup_insert_ne by congruence.
  rewrite lookup_delete_ne by congruence.
  rewrite lookup_insert_ne by congruence. reflexivity.
Qed.


End path_facts.

(** * Lemmas on file names and directory listings *)
Lemma ascii_compare_Lt_trans (x y z : Ascii.ascii) :
  Ascii.compare x y = Lt -> Ascii.compare y z = Lt -> Ascii.compare x z = Lt.
Proof.
  unfold Ascii.compare. rewrite !N.compare_lt_iff. lia.
Qed.

Lemma string_compare_Lt_trans (a : string) :
  forall b c, String.compare a b = Lt -> String.compare b c = Lt -> String.compare a c = Lt.
Proof.
  induction a as [|x a IH]; intros [|y b] [|z c]; simpl; try congruence.
  destruct (Ascii.compare x y) eqn:Hxy; try discriminate.
  - apply Ascii.compare_eq_iff in Hxy as ->.
    destruct (Ascii.compare y z); try congruence. apply IH.
  - destruct (Ascii.compare y z) eqn:Hyz; try discriminate.
    + apply Ascii.compare_eq_iff in Hyz as <-. rewrite Hxy. reflexivity.
    + rewrite (ascii_compare_Lt_trans _ _ _ Hxy Hyz). reflexivity.
Qed.


Lemma nameLt_compare (a b : string) : nameLt a b <-> String.compare a b = Lt.
Proof. unfold nameLt, String.ltb. destruct (String.compare a b); split; congruence. Qed.

Lemma nameLe_cases (a b : string) : ioutil.nameLe a b <-> a = b \/ nameLt a b.
Proof.
  unfold ioutil.nameLe, nameLt, String.leb, String.ltb.
  destruct (String.compare a b) eqn:Hc.
  - apply String.compare_eq_iff in Hc. tauto.
  - tauto.
  - split; [discriminate|]. intros [->|?]; [|discriminate].
    assert (String.compare b b = Eq) as Hbb.
    { clear. induction b as [|x b IH]; simpl; [reflexivity|].
      unfold Ascii.compare. rewrite N.compare_refl. exact IH. }
    congruence.
Qed.

Lemma nameLt_irrefl (a : string) : ~ nameLt a a.
Proof.
  rewrite nameLt_compare.
  assert (String.compare a a = Eq) as ->; [|discriminate].
  induction a as [|x a IH]; simpl; [reflexivity|].
  unfold Ascii.compare. rewrite N.compare_refl. exact IH.
Qed.

Lemma nameLt_trans (a b c : string) : nameLt a b -> nameLt b c -> nameLt a c.
Proof. rewrite !nameLt_compare. apply string_compare_Lt_trans. Qed.

#[global] Instance nameLe_trans : Transitive ioutil.nameLe.
Proof.
  intros a b c. rewrite !nameLe_cases. intros [->|Hab] [->|Hbc]; auto.
  right. eapply nameLt_trans; eassumption.
Qed.

#[global] Instance nameLe_total : Total ioutil.nameLe.
Proof. intros a b. apply String.leb_total. Qed.

#[global] Instance nameLe_antisym : AntiSymm (=) ioutil.nameLe.
Proof. intros a b. apply String.leb_antisym. Qed.

Lemma stripPrefix_Some (p s r : string) :
  ioutil.stripPrefix p s = Some r <-> s = p +:+ r.
Proof.
  revert s. induction p as [|a p IH]; intros s.
  - change ("" +:+ r) with r. simpl. split; congruence.
  - change (String a p +:+ r) with (String a (p +:+ r)). simpl.
    destruct s as [|b s]; [split; discriminate|].
    destruct (decide (a = b)) as [->|Hne].
    + rewrite IH. split; [intros ->; reflexivity|intros [= ->]; reflexivity].
    + split; [discriminate|]. intros [= ? ?]. congruence.
Qed.

Lemma app_assoc_string (a b c : string) : (a +:+ b) +:+ c = a +:+ (b +:+ c).
Proof.
  induction a as [|x a IH]; [reflexivity|].
  change (String x ((a +:+ b) +:+ c) = String x (a +:+ (b +:+ c))). rewrite IH. reflexivity.
Qed.

Lemma entryName_Some (dir key n : string) :
  ioutil.entryName dir key = Some n <-> key = filepath.Join dir n /\ ioutil.isName n = true.
Proof.
  unfold ioutil.entryName, filepath.Join.
  destruct (ioutil.stripPrefix (dir +:+ "/") key) as [r|] eqn:Hs; simpl.
  - apply stripPrefix_Some in Hs. rewrite app_assoc_string in Hs. subst key.
    destruct (ioutil.isName r) eqn:Hr.
    + split; [intros [= <-]; auto|].
      intros [Heq _]. apply (inj (String.append dir)) in Heq.
      cbv [String.append] in Heq. injection Heq as <-. reflexivity.
    + split; [discriminate|].
      intros [Heq Hn]. apply (inj (String.append dir)) in Heq.
      cbv [String.append] in Heq. injection Heq as <-. congruence.
  - split; [discriminate|]. intros [-> _].
    assert (ioutil.stripPrefix (dir +:+ "/") (dir +:+ "/" +:+ n) = Some n) as Hs'
      by (apply stripPrefix_Some; rewrite app_assoc_string; reflexivity).
    congruence.
Qed.

Lemma elem_of_ReadDir (disk : gmap string engine.Dir) (dir n : string) :
  n ∈ ioutil.ReadDir disk dir
  <-> ioutil.isName n = true /\ is_Some (disk !! filepath.Join dir n).
Proof.
  unfold ioutil.ReadDir. rewrite merge_sort_Permutation.
  rewrite list_elem_of_omap. split.
  - intros (key & Hkey & Hn). apply entryName_Some in Hn as [-> Hname].
    split; [exact Hname|]. apply list_elem_of_fmap in Hkey as ([k d] & -> & Hkd).
    apply elem_of_map_to_list in Hkd. simpl. eauto.
  - intros [Hname [d Hd]]. exists (filepath.Join dir n). split.
    + apply list_elem_of_fmap. exists (filepath.Join dir n, d). split; [reflexivity|].
      apply elem_of_map_to_list. exact Hd.
    + apply entryName_Some. auto.
Qed.

Lemma NoDup_ReadDir (disk : gmap string engine.Dir) (dir : string) :
  NoDup (ioutil.ReadDir disk dir).
Proof.
  unfold ioutil.ReadDir. rewrite merge_sort_Permutation.
  assert (NoDup (map_to_list disk).*1) as Hnd by apply NoDup_fst_map_to_list.
  induction Hnd as [|key keys Hnotin Hnd IH]; [constructor|].
  cbn. destruct (ioutil.entryName dir key) as [n|] eqn:Hn; [|exact IH].
  constructor; [|exact IH].
  rewrite list_elem_of_omap. intros (key' & Hin & Hn').
  apply entryName_Some in Hn as [-> _]. apply entryName_Some in Hn' as [-> _].
  contradiction.
Qed.

Lemma Sorted_ReadDir (disk : gmap string engine.Dir) (dir : string) :
  StronglySorted ioutil.nameLe (ioutil.ReadDir disk dir).
Proof. apply StronglySorted_merge_sort; apply _. Qed.

Section listing.
Context `{Externals}.

Lemma isDigit_not_slash (c : Ascii.ascii) :
  isDigit c = true ->
  negb (bool_decide (c = Ascii.Ascii true true true true false true false false)) = true.
Proof.
  intros Hd. apply negb_true_iff, bool_decide_eq_false. intros ->. discriminate.
Qed.

Lemma matchesDataDir_isName (n : string) :
  matchesDataDir n = true -> ioutil.isName n = true.
Proof.
  unfold matchesDataDir, ioutil.isName. intros Hm.
  apply andb_true_iff in Hm as [Hlen Hdig]. apply bool_decide_eq_true in Hlen.
  apply andb_true_iff. split.
  - apply negb_true_iff, bool_decide_eq_false. intros ->. discriminate.
  - rewrite forallb_forall in Hdig |- *. intros c Hc. apply isDigit_not_slash. auto.
Qed.

Lemma elem_of_dataDirs (disk : gmap string engine.Dir) (dir n : string) :
  n ∈ dataDirs disk dir
  <-> matchesDataDir n = true /\ is_Some (disk !! filepath.Join dir n).
Proof.
  unfold dataDirs. rewrite list_elem_of_filter, elem_of_ReadDir.
  split; [tauto|]. intros [Hm Hd]. auto using matchesDataDir_isName.
Qed.

Lemma NoDup_dataDirs (disk : gmap string engine.Dir) (dir : string) :
  NoDup (dataDirs disk dir).
Proof. apply NoDup_filter, NoDup_ReadDir. Qed.

Lemma StronglySorted_filter_names (P : string -> Prop) `{forall n, Decision (P n)}
    (l : list string) :
  StronglySorted ioutil.nameLe l -> StronglySorted ioutil.nameLe (filter P l).
Proof.
  induction 1 as [|n l Hl IH Hall]; [constructor|].
  rewrite filter_cons. destruct (decide (P n)); [|exact IH].
  constructor; [exact IH|]. apply Forall_forall. intros m Hm.
  apply list_elem_of_filter in Hm as [_ Hm]. rewrite Forall_forall in Hall. auto.
Qed.

Lemma Sorted_dataDirs (disk : gmap string engine.Dir) (dir : string) :
  StronglySorted ioutil.nameLe (dataDirs disk dir).
Proof. apply StronglySorted_filter_names, Sorted_ReadDir. Qed.

(** Two sorted lists of names without repetition that have the same
    elements are the same list. *)
Lemma names_unique (l k : list string) :
  StronglySorted ioutil.nameLe l -> StronglySorted ioutil.nameLe k ->
  NoDup l -> NoDup k -> (forall n, n ∈ l <-> n ∈ k) -> l = k.
Proof.
  intros Hl Hk Hndl Hndk Hsame.
  apply (StronglySorted_unique ioutil.nameLe); [exact Hl|exact Hk|].
  apply NoDup_Permutation; assumption.
Qed.

Lemma dataDirs_same (disk disk' : gmap string engine.Dir) (dir : string) :
  (forall n, matchesDataDir n = true ->
             is_Some (disk' !! filepath.Join dir n) <-> is_Some (disk !! filepath.Join dir n)) ->
  dataDirs disk' dir = dataDirs disk dir.
Proof.
  intros Hsame. apply names_unique; auto using Sorted_dataDirs, NoDup_dataDirs.
  intros n. rewrite !elem_of_dataDirs. split; intros [Hm Hd]; (split; [exact Hm|]);
    apply (Hsame n Hm); exact Hd.
Qed.

Lemma dataDirs_snoc (disk disk' : gmap string engine.Dir) (dir u : string) :
  matchesDataDir u = true ->
  disk !! filepath.Join dir u = None ->
  is_Some (disk' !! filepath.Join dir u) ->
  (forall n, matchesDataDir n = true -> n ≠ u ->
             is_Some (disk' !! filepath.Join dir n) <-> is_Some (disk !! filepath.Join dir n)) ->
  Forall (fun n => nameLt n u) (dataDirs disk dir) ->
  dataDirs disk' dir = dataDirs disk dir ++ [u].
Proof.
  intros Hu Hnone Hsome Hsame Hlt.
  assert (u ∉ dataDirs disk dir) as Hnotin.
  { rewrite elem_of_dataDirs. intros [_ [d Hd]]. congruence. }
  apply names_unique; auto using Sorted_dataDirs, NoDup_dataDirs.
  - apply StronglySorted_app_2; [|apply Sorted_dataDirs|repeat constructor].
    intros a b Ha Hb. apply list_elem_of_singleton in Hb as ->.
    rewrite Forall_forall in Hlt. apply nameLe_cases. right. auto.
  - apply NoDup_app. split; [apply NoDup_dataDirs|]. split; [|apply NoDup_singleton].
    intros n Hn Hn'. apply list_elem_of_singleton in Hn' as ->. contradiction.
  - intros n. rewrite elem_of_app, list_elem_of_singleton, !elem_of_dataDirs. split.
    + intros [Hm Hd]. destruct (decide (n = u)) as [->|Hne]; [right; reflexivity|].
      left. split; [exact Hm|]. apply (Hsame n Hm Hne). exact Hd.
    + intros [[Hm Hd] | ->]; [|auto].
      split; [exact Hm|]. apply (Hsame n Hm); [|exact Hd].
      intros ->. destruct Hd as [d Hd]. congruence.
Qed.
End listing.

(** * Lemmas on reopening a database *)
Section reopen.
Context `{Externals}.

Lemma replay_entriesOf (fs : list ByteStream) :
  forall pos s, replay fs pos s = foldl (fun s e => index.Add e s) s (entriesOf fs pos).
Proof. induction fs as [|b fs IH]; intros pos s; simpl; [reflexivity|]. apply IH. Qed.

Lemma entriesOf_snoc (fs : list ByteStream) (b : ByteStream) :
  forall pos,
    entriesOf (fs ++ [b]) pos
    = entriesOf fs pos
      ++ [ {| index.Key := Hash32 (model.Key (FromByteStream b));
              index.Status := model.Status (FromByteStream b);
              index.Offset := pos + engine.byteLen fs |} ].
Proof.
  induction fs as [|f fs IH]; intros pos; simpl.
  - rewrite Z.add_0_r. reflexivity.
  - rewrite IH. unfold engine.byteLen. simpl. fold (engine.byteLen fs).
    rewrite Z.add_assoc. reflexivity.
Qed.

Lemma openDataHolder_same_dir (env : Env) (p : string) (w w' : World) :
  disk w' !! p = disk w !! p -> openDataHolder env p w' = openDataHolder env p w.
Proof.
  intros Hsame. unfold openDataHolder, LoadIndex, engine.OpenFile, engine.Open, attempt.
  rewrite Hsame.
  destruct (fails env OpOpenFile); [reflexivity|].
  destruct (disk w !! p) as [d|] eqn:Hd; [|reflexivity].
  rewrite Hsame, Hd. reflexivity.
Qed.

Lemma loadHolders_all (env : Env) (w : World) (flist : list string) :
  forall (db : Database) (dhs : list dataHolder.t),
    opens env ->
    dataHolder.path <$> dhs
    = filepath.Join (Path (Descriptor db))
        <$> filter (fun n => matchesDataDir n = true) flist ->
    Forall (reloads w) dhs ->
    loadHolders env flist db w = Some (setDhList (dhList db ++ dhs) db).
Proof.
  induction flist as [|v rest IH]; intros db dhs Hopens Hpaths Hall.
  - destruct dhs; [|discriminate]. simpl. rewrite app_nil_r. destruct db; reflexivity.
  - simpl. rewrite filter_cons in Hpaths.
    destruct (matchesDataDir v) eqn:Hv.
    + rewrite decide_True in Hpaths by reflexivity.
      destruct dhs as [|dh dhs]; [discriminate|].
      rewrite !fmap_cons in Hpaths. injection Hpaths as Hp Hps.
      apply Forall_cons in Hall as [Hdh Hall].
      rewrite <- Hp, (Hdh env Hopens).
      rewrite (IH _ dhs Hopens); [|exact Hps|exact Hall].
      simpl. rewrite <- app_assoc. reflexivity.
    + rewrite decide_False in Hpaths by congruence. apply IH; assumption.
Qed.

Lemma OpenDatabase_persistent (env : Env) (db : Database) (w : World) :
  persistent db w -> opens env ->
  OpenDatabase env (Descriptor db) w = (Some (reopened db), w).
Proof.
  intros (Hhome & Hpath & (d & fs & Hd & Hf & Hi & Hsum) & Hall & Hlist) Hopens.
  unfold logAtHome in Hhome.
  unfold OpenDatabase, NewDatabase, Commitlog.New. simpl.
  rewrite <- Hhome, Hd.
  unfold Commitlog_LoadData. simpl. unfold engine.Open. rewrite Hd. simpl. rewrite Hf.
  unfold LoadData. simpl.
  rewrite (loadHolders_all env w _ _ (dhList db) Hopens); [|exact Hlist|exact Hall].
  simpl. unfold reopened, setCache, setDhList, setCommitlog, Commitlog.setSummary. simpl.
  rewrite replay_entriesOf. fold (index.ofEntries (entriesOf fs 0)). rewrite <- Hsum.
  rewrite <- Hpath. destruct db as [D [fp st sm] l c]; simpl in *. subst. reflexivity.
Qed.

End reopen.

(** * The read path: lookup order and corrupted reads *)
Section read_claims.
Context `{Externals}.

(** C1 (amended).  For every key, [GetDataByKey] consults the stores in a
    fixed order: the cache by key hash, then the commit log, then every data
    file from the newest to the oldest behind its bloom filter over the
    stringified key hash; the first store that has the key decides the
    answer.  It answers "not found" exactly when the cache and the commit log
    miss and either no data file offers the key or the newest data file that
    offers it cannot produce the frame. *)
Theorem GetDataByKey_lookup_order (db : Database) (key : string) (w : World) :
  (GetDataByKey db key w).1.1 = lookupInOrder db key w
  /\ ((GetDataByKey db key w).1.1 = (None, false) <->
      cache.find (Hash32 key) (cache.items (cache db)) = None
      /\ Commitlog.Get (commitlog db) key w = None
      /\ ((forall dh, dh ∈ dhList db -> admits (Hash32 key) dh = None)
          \/ exists dh e, firstAdmitting (Hash32 key) (reverse (dhList db)) = Some (dh, e)
                          /\ frameAt w dh e = None)).
Proof.
  split; [apply GetDataByKey_result|].
  rewrite GetDataByKey_result. unfold lookupInOrder.
  destruct (cache.find _ _) as [c|].
  { split; [discriminate | intros [? _]; discriminate]. }
  destruct (Commitlog.Get _ _ _) as [bs|].
  { split; [discriminate | intros (_ & ? & _); discriminate]. }
  destruct (firstAdmitting _ _) as [[dh e]|] eqn:Hfirst.
  - destruct (frameAt w dh e) as [b|] eqn:Hframe.
    + split; [discriminate|]. intros (_ & _ & [Hnone | (dh' & e' & Heq & Hf)]).
      * assert (firstAdmitting (Hash32 key) (reverse (dhList db)) = None) as Hn.
        { apply firstAdmitting_None. intros d Hd. apply Hnone.
          rewrite elem_of_reverse in Hd. exact Hd. }
        rewrite Hn in Hfirst. discriminate.
      * injection Heq as <- <-. rewrite Hf in Hframe. discriminate.
    + split; [|reflexivity]. intros _. repeat split. right. eauto.
  - split; [|reflexivity]. intros _. repeat split. left.
    intros d Hd. apply (proj1 (firstAdmitting_None _ _) Hfirst).
    rewrite elem_of_reverse. exact Hd.
Qed.

(** C7 (amended).  When the cache and the commit log miss and the newest data
    file that offers the key cannot produce the frame, the failure is logged
    once as [ErrFileCorrupted] and the lookup ends there: the answer is
    "not found" whatever the older data files hold, the database value is
    unchanged, and the call returns (the panic on the nil frame is recovered). *)
Theorem GetDataByKey_corrupted_read_ends_lookup
    (db : Database) (key : string) (w : World)
    (older newer : list dataHolder.t) (dh : dataHolder.t) (e : index.Entry) :
  dhList db = older ++ dh :: newer ->
  cache.find (Hash32 key) (cache.items (cache db)) = None ->
  Commitlog.Get (commitlog db) key w = None ->
  Forall (fun d => admits (Hash32 key) d = None) newer ->
  admits (Hash32 key) dh = Some e ->
  frameAt w dh e = None ->
  GetDataByKey db key w
  = ((None, false), db, slog (Errorf ErrFileCorrupted (dataHolder.path dh)) w).
Proof.
  intros Hl Hc Hg Hnewer Hdh Hframe.
  rewrite GetDataByKey_scan by assumption.
  rewrite Hl, reverse_app, reverse_cons, <- app_assoc.
  rewrite firstAdmitting_skip by (apply Forall_reverse; exact Hnewer).
  simpl. rewrite Hdh, Hframe. reflexivity.
Qed.

End read_claims.

(** C1 (counterexample).  Two data files hold the key "k"; the cache and the
    commit log do not.  With the data file of the newer one cut down to
    nothing, the lookup answers "not found" although the older data file
    offers the key and its frame can be read. *)
Lemma GetDataByKey_not_found_despite_older_copy :
  (GetDataByKey scenario.t5.1 "k" (scenario.truncated scenario.newer scenario.t5.2)).1.1
  = (None, false)
  /\ exists dh e,
       dhList scenario.t5.1 !! 0%nat = Some dh
       /\ admits (Hash32 "k") dh = Some e
       /\ frameAt (scenario.truncated scenario.newer scenario.t5.2) dh e
          = Some (ToByteStream (scenario.active "k" Byte.x01)).
Proof.
  split; [vm_compute; reflexivity|].
  eexists _, _. split; [vm_compute; reflexivity|].
  split; vm_compute; reflexivity.
Qed.

(** C7 (counterexample).  In the same database, with the data file of the
    newer holder missing, the scan restricted to the strictly older holders
    finds the first version of "k", yet the lookup answers "not found": it
    does not go on to the older data files. *)
Lemma GetDataByKey_does_not_continue_to_older :
  (searchDataFiles scenario.t5.1 (Hash32 "k") (Itoa (Hash32 "k")) 1
     (scenario.unlinked scenario.newer scenario.t5.2)).1
  = Some (Some (scenario.active "k" Byte.x01), true)
  /\ (GetDataByKey scenario.t5.1 "k" (scenario.unlinked scenario.newer scenario.t5.2)).1.1
     = (None, false).
Proof. split; vm_compute; reflexivity. Qed.

(** C7 (witness): the database [t5] with the data file of its newer holder
    missing. *)
Lemma GetDataByKey_corrupted_read_ends_lookup_witness :
  GetDataByKey scenario.t5.1 "k" (scenario.unlinked scenario.newer scenario.t5.2)
  = ((None, false), scenario.t5.1,
     slog (Errorf ErrFileCorrupted (dataHolder.path (scenario.holderAt scenario.t5 1)))
          (scenario.unlinked scenario.newer scenario.t5.2)).
Proof.
  apply (GetDataByKey_corrupted_read_ends_lookup scenario.t5.1 "k" _
           [scenario.holderAt scenario.t5 0] [] (scenario.holderAt scenario.t5 1)
           (scenario.entryOf (scenario.holderAt scenario.t5 1) "k")).
  - vm_compute; reflexivity.
  - vm_compute; reflexivity.
  - vm_compute; reflexivity.
  - constructor.
  - vm_compute; reflexivity.
  - vm_compute; reflexivity.
Defined.

(** * The write path: size bound, rotation failures, failed inserts *)
Section write_claims.
Context `{Externals}.

(** C5 (amended).  After a completed [InsertData] of a record whose frame is
    no longer than its [Size] field and whose [Size] is at most
    [MaxDataLogSize], the on-disk byte size of the commit log is at most
    [MaxDataLogSize] (sizes below 2^63, so that the 64-bit sum does not wrap). *)
Theorem InsertData_commitlog_bound (env : Env) (db db' : Database)
    (df : model.DataDefinition) (w w' : World) (size : Z) :
  InsertData env db df w = (None, db', w') ->
  Commitlog.Size env (commitlog db) w = Ok size ->
  size + Z.of_N (model.Size df) < 2 ^ 63 ->
  engine.frameLen (ToByteStream df) <= Z.of_N (model.Size df) ->
  Z.of_N (model.Size df) <= MaxDataLogSize (Descriptor db) < 2 ^ 63 ->
  exists n, n <= MaxDataLogSize (Descriptor db')
            /\ forall env', fails env' OpSize = false ->
                            Commitlog.Size env' (commitlog db') w' = Ok n.
Proof.
  intros Hins Hsize Hover Hframe Hmax.
  rewrite InsertData_unfold, Hsize in Hins.
  destruct (Size_Ok _ _ _ _ Hsize) as (fs0 & Hfs0 & _).
  pose proof (byteLen_nonneg fs0) as Hnn.
  destruct (decide (rotates db df size)) as [Hrot|Hrot].
  - destruct (rollover env (cached db df) w) as [[[e|] d] w1] eqn:Hroll; [discriminate|].
    apply rollover_None in Hroll as (ndh & w0 & _ & _ & Hdesc & _ & _ & _ & Hlog & _).
    apply appendStep_None in Hins as (c & Hadd & ->).
    apply Add_None in Hadd as (fs & Hfs & Hfs' & _).
    rewrite (logFrames_inj _ _ _ _ Hfs Hlog) in Hfs'.
    exists (engine.byteLen ([] ++ [ToByteStream df])). split.
    + simpl. rewrite Hdesc. simpl. unfold engine.frameLen in *. lia.
    + intros env' Henv. apply Size_logFrames; assumption.
  - apply appendStep_None in Hins as (c & Hadd & ->).
    apply Add_None in Hadd as (fs & Hfs & Hfs' & _).
    assert (size = engine.byteLen fs) as Hsz
      by (eapply Size_logFrames_eq; [exact Hsize | exact Hfs]).
    exists (engine.byteLen (fs ++ [ToByteStream df])). split.
    + unfold rotates in Hrot.
      rewrite (int64_small (Z.of_N _)) in Hrot by lia.
      rewrite !int64_small in Hrot by lia.
      rewrite byteLen_app. simpl. unfold engine.frameLen in *. lia.
    + intros env' Henv. apply Size_logFrames; assumption.
Qed.

(** C4 (amended).  When an insert triggers a rotation: if renaming the data
    file, renaming the directory, opening the renamed directory, loading the
    index or creating the bloom filter file fails, [InsertData] returns the
    error and the triggering write is not accepted (the database value keeps
    its commit log and data file list, only the cache put stands, nothing is
    logged); the steps already carried out on disk are not undone: the disk
    is as before the rotation when the rename of the data file is the step
    that failed, and after a failure of a later step the commit log file is
    no longer where the commit log was.  When [newDataHolder] succeeds, the
    data, index and bloom filter files of the new directory exist on disk
    while the fresh commit log does not exist yet. *)
Theorem InsertData_rotation_failure (env : Env) (db : Database)
    (df : model.DataDefinition) (w : World) (size : Z) :
  Commitlog.Size env (commitlog db) w = Ok size ->
  rotates db df size ->
  (fails env OpRenameFile || fails env OpRenameDir || fails env OpOpenFile
   || fails env OpLoadIndex || fails env OpCreateBloom = true ->
   exists e w', InsertData env db df w = (Some e, cached db df, w'))
  /\ (forall e w',
        newDataHolder env (Commitlog.sto (commitlog db)) (Path (Descriptor db))
          (BloomFilterFp (Descriptor db)) w = (Err e, w') ->
        InsertData env db df w = (Some e, cached db df, w')
        /\ log w' = log w
        /\ (e = IOError OpRenameFile -> w' = w)
        /\ (logAtHome db -> e <> IOError OpRenameFile ->
            engine.Open (disk w') (Commitlog.sto (commitlog db)) engine.FileCommitlog
            = None))
  /\ (forall ndh w',
        newDataHolder env (Commitlog.sto (commitlog db)) (Path (Descriptor db))
          (BloomFilterFp (Descriptor db)) w = (Ok ndh, w') ->
        logAtHome db ->
        is_Some (engine.Open (disk w') (dataHolder.sto ndh) engine.FileData)
        /\ is_Some (engine.Open (disk w') (dataHolder.sto ndh) engine.FileIndex)
        /\ is_Some (engine.Open (disk w') (dataHolder.sto ndh) engine.FileBloomFilter)
        /\ disk w' !! filepath.Join (Path (Descriptor db)) FolderCommitlog = None).
Proof.
  intros Hsize Hrot.
  assert (forall e w',
            newDataHolder env (Commitlog.sto (commitlog db)) (Path (Descriptor db))
              (BloomFilterFp (Descriptor db)) w = (Err e, w') ->
            InsertData env db df w = (Some e, cached db df, w')) as Hfail.
  { intros e w' Hn. rewrite InsertData_unfold, Hsize.
    rewrite decide_True by exact Hrot.
    unfold rollover. simpl. rewrite Hn. reflexivity. }
  split; [|split].
  - intros Hf.
    destruct (newDataHolder_fault env (Commitlog.sto (commitlog db)) (Path (Descriptor db))
                (BloomFilterFp (Descriptor db)) w Hf) as (e & w' & Hn).
    exists e, w'. apply Hfail. exact Hn.
  - intros e w' Hn. split; [apply Hfail; exact Hn|].
    destruct (newDataHolder_Err _ _ _ _ _ _ _ Hn) as [Hlog Hsame].
    split; [exact Hlog|]. split; [exact Hsame|].
    intros Hhome Hne. unfold logAtHome in Hhome. rewrite Hhome in Hn |- *.
    eapply newDataHolder_Err_renamed; eassumption.
  - intros ndh w' Hn Hhome.
    apply newDataHolder_Ok_files in Hn as (_ & _ & Hgone & Hdata & Hidx & Hbloom).
    repeat split; auto.
Qed.


(** C8 (amended).  When [InsertData] fails, the error is returned and nothing
    happens after the failing step: the database value is the one after the
    cache put when the size query, the rollover or an append without rollover
    failed, and the one after a completed rollover when the append that
    follows it failed.  The cache put stands, so the record is still
    answered by [GetDataByKey] from the cache (whenever the cache has room
    for an entry) although the append did not succeed. *)
Theorem InsertData_failure (env : Env) (db db' : Database)
    (df : model.DataDefinition) (w w' : World) (e : error) :
  InsertData env db df w = (Some e, db', w') ->
  cache db' = cache.Put (cache db) (Hash32 (model.Key df)) (ToByteStream df)
  /\ ((db' = cached db df
       /\ (w' = w
           \/ newDataHolder env (Commitlog.sto (commitlog db)) (Path (Descriptor db))
                (BloomFilterFp (Descriptor db)) w = (Err e, w')))
      \/ (rollover env (cached db df) w = (None, db', w')
          /\ e = IOError (OpAdd (model.Key df))))
  /\ ((0 < cache.capacity (cache db))%nat ->
      (GetDataByKey db' (model.Key df) w').1.1
      = (Some (FromByteStream (ToByteStream df)), true)).
Proof.
  intros Hins. rewrite InsertData_unfold in Hins.
  assert (cache db' = cache.Put (cache db) (Hash32 (model.Key df)) (ToByteStream df)
          /\ ((db' = cached db df
               /\ (w' = w
                   \/ newDataHolder env (Commitlog.sto (commitlog db)) (Path (Descriptor db))
                        (BloomFilterFp (Descriptor db)) w = (Err e, w')))
              \/ (rollover env (cached db df) w = (None, db', w')
                  /\ e = IOError (OpAdd (model.Key df))))) as [Hcache Hstate].
  { destruct (Commitlog.Size env (commitlog db) w) as [size|e'].
    - destruct (decide (rotates db df size)).
      + destruct (rollover env (cached db df) w) as [[[e'|] d] w1] eqn:Hroll.
        * injection Hins as <- <- <-.
          apply rollover_Some in Hroll as [-> Hn]. split; [reflexivity|].
          left. split; [reflexivity|]. right. exact Hn.
        * apply appendStep_Some in Hins as (-> & -> & ->).
          apply rollover_None in Hroll as Hr.
          destruct Hr as (ndh & w0 & _ & _ & _ & Hc & _).
          split; [exact Hc|]. right. split; reflexivity.
      + apply appendStep_Some in Hins as (-> & -> & ->).
        split; [reflexivity|]. left. split; [reflexivity|]. left. reflexivity.
    - injection Hins as <- <- <-. split; [reflexivity|].
      left. split; [reflexivity|]. left. reflexivity. }
  split; [exact Hcache|]. split; [exact Hstate|].
  intros Hcap. rewrite GetDataByKey_result. unfold lookupInOrder.
  rewrite Hcache, find_Put by exact Hcap. reflexivity.
Qed.

End write_claims.

(** C5 (witness): the insert of "h" that rolls [s2] over and leads to [s3]. *)
Lemma InsertData_commitlog_bound_witness :
  exists n, n <= MaxDataLogSize (Descriptor scenario.s3.1)
            /\ forall env', fails env' OpSize = false ->
                            Commitlog.Size env' (commitlog scenario.s3.1) scenario.s3.2 = Ok n.
Proof.
  apply (InsertData_commitlog_bound (scenario.calm 1500000000000000003)
           scenario.s2.1 scenario.s3.1 (scenario.active "h" Byte.x03)
           scenario.s2.2 scenario.s3.2 38).
  - vm_compute; reflexivity.
  - vm_compute; reflexivity.
  - vm_compute; reflexivity.
  - vm_compute; discriminate.
  - vm_compute; split; [discriminate | reflexivity].
Defined.

(** C5 (counterexample).  With a threshold of 40 bytes and a commit log of 19
    bytes, the insert of a record of 63 bytes completes and leaves a commit
    log of 63 bytes; and the compaction run on [s4] leaves, between writes, a
    commit log of 56 bytes. *)
Lemma InsertData_leaves_commitlog_above_bound :
  MaxDataLogSize (Descriptor scenario.oversized.1.2) = 40
  /\ Commitlog.Size (scenario.calm 0) (commitlog scenario.s1.1) scenario.s1.2 = Ok 19
  /\ scenario.oversized.1.1 = None
  /\ Commitlog.Size (scenario.calm 0) (commitlog scenario.oversized.1.2)
       scenario.oversized.2 = Ok 63
  /\ Commitlog.Size (scenario.calm 0) (commitlog scenario.s4.1) scenario.s4.2 = Ok 37
  /\ Commitlog.Size (scenario.calm 0) (commitlog scenario.compacted.1.2)
       scenario.compacted.2 = Ok 56.
Proof. repeat split; vm_compute; reflexivity. Qed.

(** C4 (witness): the insert of "h" into [s2], which triggers a rotation, in
    an environment where the rename of the directory fails. *)
Lemma InsertData_rotation_failure_witness :
  Commitlog.Size (scenario.failing 1500000000000000003 OpRenameDir)
    (commitlog scenario.s2.1) scenario.s2.2 = Ok 38
  /\ rotates scenario.s2.1 (scenario.active "h" Byte.x03) 38
  /\ exists e w',
       InsertData (scenario.failing 1500000000000000003 OpRenameDir) scenario.s2.1
         (scenario.active "h" Byte.x03) scenario.s2.2
       = (Some e, cached scenario.s2.1 (scenario.active "h" Byte.x03), w').
Proof.
  assert (Commitlog.Size (scenario.failing 1500000000000000003 OpRenameDir)
            (commitlog scenario.s2.1) scenario.s2.2 = Ok 38) as Hsize
    by (vm_compute; reflexivity).
  assert (rotates scenario.s2.1 (scenario.active "h" Byte.x03) 38) as Hrot
    by (vm_compute; reflexivity).
  split; [exact Hsize|]. split; [exact Hrot|].
  apply (InsertData_rotation_failure _ _ _ _ _ Hsize Hrot).
  vm_compute; reflexivity.
Defined.

(** C4 (counterexample).  The same insert: the error is returned, but the
    commit log is not in its state from before the rotation.  Its file, which
    held two frames, has been renamed to the data kind and can no longer be
    opened or sized as a commit log. *)
Lemma InsertData_failed_rotation_changes_commitlog :
  scenario.rotationFails.1.1 = Some (IOError OpRenameDir)
  /\ engine.Open (disk scenario.s2.2) "/db/commitlog" engine.FileCommitlog
     = Some (engine.Frames [ToByteStream (scenario.active "f" Byte.x01);
                            ToByteStream (scenario.active "g" Byte.x02)])
  /\ engine.Open (disk scenario.rotationFails.2) "/db/commitlog" engine.FileCommitlog = None
  /\ Commitlog.Size (scenario.calm 0) (commitlog scenario.rotationFails.1.2)
       scenario.rotationFails.2 = Err (IOError OpSize).
Proof. repeat split; vm_compute; reflexivity. Qed.

(** C8 (witness): the insert of "g" into [s1] when the append fails. *)
Lemma InsertData_failure_witness :
  InsertData (scenario.failing 1500000000000000002 (OpAdd "g")) scenario.s1.1
    (scenario.active "g" Byte.x02) scenario.s1.2
  = (Some (IOError (OpAdd "g")), scenario.appendFails.1.2, scenario.appendFails.2)
  /\ ((0 < cache.capacity (cache scenario.s1.1))%nat ->
      (GetDataByKey scenario.appendFails.1.2 "g" scenario.appendFails.2).1.1
      = (Some (FromByteStream (ToByteStream (scenario.active "g" Byte.x02))), true)).
Proof.
  assert (InsertData (scenario.failing 1500000000000000002 (OpAdd "g")) scenario.s1.1
            (scenario.active "g" Byte.x02) scenario.s1.2
          = (Some (IOError (OpAdd "g")), scenario.appendFails.1.2, scenario.appendFails.2))
    as Hins by (vm_compute; reflexivity).
  split; [exact Hins|].
  apply (InsertData_failure _ _ _ _ _ _ _ Hins).
Defined.

(** C8 (counterexample).  The append of "g" failed and the commit log does
    not have the record, yet the record is answered afterwards: the cache put
    made before the append stands. *)
Lemma InsertData_failed_append_still_queryable :
  scenario.appendFails.1.1 = Some (IOError (OpAdd "g"))
  /\ Commitlog.Get (commitlog scenario.appendFails.1.2) "g" scenario.appendFails.2 = None
  /\ dhList scenario.appendFails.1.2 = []
  /\ (GetDataByKey scenario.appendFails.1.2 "g" scenario.appendFails.2).1.1
     = (Some (scenario.active "g" Byte.x02), true).
Proof. repeat split; vm_compute; reflexivity. Qed.

(** * Bloom filters of data files *)
Section bloom_claims.
Context `{Externals}.

(** C6.  The bloom filter of a data file contains the stringified key hash
    of every key of the data file's index summary (no false negatives), both
    for the holder that [newDataHolder] returns when it seals the commit log
    and for the holder that [openDataHolder] builds when the directory is
    loaded again: provided the sealing wrote the filter's bytes and the
    serialised form reads back as the filter, reloading the unchanged
    directory succeeds when nothing fails and returns the very same holder. *)
Theorem bloomfilter_no_false_negatives (env : Env) (sto : engine.Storage)
    (dbPath : string) (fp : float32) (w w' : World) (dh : dataHolder.t) :
  newDataHolder env sto dbPath fp w = (Ok dh, w') ->
  (forall k, is_Some (index.LookUp (dataHolder.summary dh) k) ->
             BloomFilter.Contains (dataHolder.bloomfilter dh) (Itoa k) = true)
  /\ (fails env OpAppendBloom = false ->
      bloomOfBytes (bloomBytes (dataHolder.bloomfilter dh)) = dataHolder.bloomfilter dh ->
      forall env' w'',
        disk w'' !! dataHolder.path dh = disk w' !! dataHolder.path dh ->
        (fails env' OpOpenFile || fails env' OpLoadIndex || fails env' OpOpenBloom = false ->
         openDataHolder env' (dataHolder.path dh) w'' = Ok dh)
        /\ forall dh',
             openDataHolder env' (dataHolder.path dh) w'' = Ok dh' ->
             dh' = dh
             /\ forall k, is_Some (index.LookUp (dataHolder.summary dh') k) ->
                          BloomFilter.Contains (dataHolder.bloomfilter dh') (Itoa k) = true).
Proof.
  intros Hn. apply newDataHolder_Ok_disk in Hn. cbv zeta in Hn.
  destruct Hn as (d1 & dir & es & fs & _ & _ & _ & Hidx & Hdisk & Hfs & _ & Hdh).
  assert (forall k, is_Some (index.LookUp (dataHolder.summary dh) k) ->
                    BloomFilter.Contains (dataHolder.bloomfilter dh) (Itoa k) = true) as Hsealed.
  { intros k Hk. rewrite Hdh in *. simpl in *.
    apply populateBloom_Contains; [apply keyed_ofEntries | exact Hk]. }
  split; [exact Hsealed|].
  intros Hwrite Hround env' w'' Hsame.
  rewrite Hwrite in Hfs.
  assert (disk w'' !! dataHolder.path dh
          = Some (engine.setFile engine.FileBloomFilter
                    (Some (engine.Frames [bloomBytes (dataHolder.bloomfilter dh)])) dir))
    as Hdir.
  { rewrite Hsame, Hdisk, Hfs. rewrite Hdh at 1. simpl. apply lookup_insert_eq. }
  assert (openDataHolder env' (dataHolder.path dh) w''
          = if fails env' OpOpenFile then Err (IOError OpOpenFile)
            else if fails env' OpLoadIndex then Err (IOError OpLoadIndex)
            else if fails env' OpOpenBloom then Err (IOError OpOpenBloom)
            else Ok dh) as Hopen.
  { rewrite (openDataHolder_intact env' _ _ _ es
               (bloomBytes (dataHolder.bloomfilter dh)) [] Hdir);
      [|exact Hidx|reflexivity].
    rewrite Hround. rewrite Hdh. reflexivity. }
  rewrite Hopen. split.
  - intros Hcalm. apply orb_false_elim in Hcalm as [Hcalm H3].
    apply orb_false_elim in Hcalm as [H1 H2].
    rewrite H1, H2, H3. reflexivity.
  - intros dh' Hdh'.
    destruct (fails env' OpOpenFile); [discriminate|].
    destruct (fails env' OpLoadIndex); [discriminate|].
    destruct (fails env' OpOpenBloom); [discriminate|].
    injection Hdh' as <-. split; [reflexivity | exact Hsealed].
Qed.

End bloom_claims.

(** C6 (witness): the rotation of the commit log of [s2], and the reload of
    the directory it produced. *)
Lemma bloomfilter_no_false_negatives_witness :
  newDataHolder (scenario.calm 1500000000000000003) "/db/commitlog" "/db" 0%N scenario.s2.2
  = (Ok scenario.sealedHolder, scenario.rotation.2)
  /\ (forall k, is_Some (index.LookUp (dataHolder.summary scenario.sealedHolder) k) ->
                BloomFilter.Contains (dataHolder.bloomfilter scenario.sealedHolder) (Itoa k)
                = true)
  /\ openDataHolder (scenario.calm 0) (dataHolder.path scenario.sealedHolder)
       scenario.rotation.2 = Ok scenario.sealedHolder.
Proof.
  assert (newDataHolder (scenario.calm 1500000000000000003) "/db/commitlog" "/db" 0%N
            scenario.s2.2 = (Ok scenario.sealedHolder, scenario.rotation.2)) as Hn
    by (vm_compute; reflexivity).
  split; [exact Hn|].
  destruct (bloomfilter_no_false_negatives _ _ _ _ _ _ _ Hn) as [Hsealed Hreload].
  split; [exact Hsealed|].
  apply (Hreload eq_refl); [vm_compute; reflexivity | reflexivity | reflexivity].
Defined.

(** * Compaction *)
Section compaction_claims.
Context `{Externals}.





(** C10.  A compaction run leaves the data file list of the database value
    as it was.  After a run that reached its end, the directory of every
    affected data file is gone from the disk while its holder, with its
    summary and bloom filter, is still in the list: no frame of it can be
    read any more, and a lookup that misses the cache and the commit log and
    finds the key first in such a holder is answered "not found" through the
    corrupted-read path of [dataHolder.Get]. *)
Theorem doCompaction_keeps_dhList (env : Env) (db : Database) (w : World) :
  dhList (doCompaction env db w).1.2 = dhList db
  /\ ((doCompaction env db w).1.1 = true ->
      forall dh, dh ∈ dhList db -> affected (tombstonesOf db) dh ->
        disk (doCompaction env db w).2 !! dataHolder.path dh = None
        /\ (dataHolder.sto dh = dataHolder.path dh ->
            (forall e, frameAt (doCompaction env db w).2 dh e = None)
            /\ forall key e older newer,
                 dhList db = older ++ dh :: newer ->
                 cache.find (Hash32 key) (cache.items (cache db)) = None ->
                 Commitlog.Get (commitlog (doCompaction env db w).1.2) key
                   (doCompaction env db w).2 = None ->
                 Forall (fun d => admits (Hash32 key) d = None) newer ->
                 admits (Hash32 key) dh = Some e ->
                 GetDataByKey (doCompaction env db w).1.2 key (doCompaction env db w).2
                 = ((None, false), (doCompaction env db w).1.2,
                    slog (Errorf ErrFileCorrupted (dataHolder.path dh))
                         (doCompaction env db w).2))).
Proof.
  destruct (doCompaction env db w) as [[fin db'] w'] eqn:Hrun. simpl.
  unfold doCompaction in Hrun. fold (tombstonesOf db) in Hrun.
  apply (compactHolders_any env _ 0%N w) in Hrun as (Hshape & _ & _ & Hdel & _).
  destruct Hshape as (Hlist & Hcache & _).
  split; [exact Hlist|].
  intros -> dh Hdh Haff.
  assert (disk w' !! dataHolder.path dh = None) as Hgone.
  { apply Hdel; [reflexivity|exact Hdh|]. apply dhContainsAnyTombstone_true. exact Haff. }
  split; [exact Hgone|].
  intros Hsto.
  assert (forall e, frameAt w' dh e = None) as Hframe.
  { intros e. apply frameAt_gone. rewrite Hsto. exact Hgone. }
  split; [exact Hframe|].
  intros key e older newer Hl Hc Hg Hnewer Hadm.
  rewrite GetDataByKey_scan; [|rewrite Hcache; exact Hc|exact Hg].
  rewrite Hlist, Hl, reverse_app, reverse_cons, <- app_assoc.
  rewrite firstAdmitting_skip by (apply Forall_reverse; exact Hnewer).
  simpl. rewrite Hadm, Hframe. reflexivity.
Qed.


End compaction_claims.


(** The frames that run rewrites: the frame of "g" alone. *)
Example rewritten_s4 :
  rewritten scenario.s4.2 (tombstonesOf scenario.s4.1) (dhList scenario.s4.1)
  = [ToByteStream (scenario.active "g" Byte.x02)].
Proof. vm_compute. reflexivity. Qed.




(** The frame effect of C10 on a run: after the compaction run [u5] the holder
    of the deleted data file is still consulted, and the lookup of "g" ends
    in the corrupted-read path. *)
Example GetDataByKey_after_compaction :
  scenario.u5.1.1 = true
  /\ length (dhList scenario.u5.1.2) = 1%nat
  /\ disk scenario.u5.2 !! scenario.sealed = None
  /\ GetDataByKey scenario.u5.1.2 "g" scenario.u5.2
     = ((None, false), scenario.u5.1.2,
        slog (Errorf ErrFileCorrupted scenario.sealed) scenario.u5.2).
Proof. repeat split; vm_compute; reflexivity. Qed.
